(** * rss-personal-radio: the effects notebook, the cron wrapper and the
      daily intro

    Three programs of the repository are embedded here.

    - [Vocoder]: notebooks/vocoder.ipynb, the Effects Processor.  The notebook
      is a straight line of cells over three names ([y], [sr], [y_current]);
      every cell is a function from the notebook state to a result that is
      either the next state or a Python exception.  NumPy arrays are a shape
      and a flat row-major buffer.  Samples are real numbers: the rounding of
      float32/float64 arithmetic is not part of the model.  The calls into
      librosa, SciPy and Pedalboard are the fields of the record
      [AudioLibs]; nothing is assumed about them except where a theorem
      says so.
    - [RunJobs]: run_jobs.sh, the shell wrapper that cron starts: a shell
      state, the streams and the processes started, over what the machine
      answers.
    - [DailyIntro]: notebooks/daily_intro.ipynb, the notebook that has the
      greeting spoken, saved, vocoded and uploaded: the log of its calls,
      over what the services answer. *)

From Stdlib Require Import String Ascii Bool ZArith Reals Lra Lia List.
Import ListNotations.

(** ** Python exceptions *)

Inductive exn : Type :=
| ValueError
| TypeError
| ZeroDivisionError
| LibraryError (what : string).

Inductive result (A : Type) : Type :=
| Ok (a : A)
| Raise (e : exn).

Arguments Ok {A} a.
Arguments Raise {A} e.

Definition bind {A B : Type} (m : result A) (k : A -> result B) : result B :=
  match m with
  | Ok a => k a
  | Raise e => Raise e
  end.

Declare Scope result_scope.
Delimit Scope result_scope with result.
Notation "x <- m ;; k" := (bind m (fun x => k))
  (at level 61, m at next level, right associativity) : result_scope.
Notation "' pat <- m ;; k" := (bind m (fun x => match x with pat => k end))
  (at level 61, pat pattern, m at next level, right associativity) : result_scope.

(** ** NumPy arrays *)

Module Numpy.

Local Open Scope R_scope.

(** An array is its shape and its elements in row-major order. *)
Record ndarray : Type := mkArr { shape : list nat; data : list R }.

Definition ndim (a : ndarray) : nat := length (shape a).

(** The one-dimensional array holding the samples [v]. *)
Definition array1 (v : list R) : ndarray := mkArr [length v] v.

(** [len(a)]: the first dimension; a 0-d array is unsized. *)
Definition len (a : ndarray) : result nat :=
  match shape a with
  | [] => Raise TypeError
  | n :: _ => Ok n
  end.

(** [np.expand_dims(a, axis=0)] *)
Definition expand_dims0 (a : ndarray) : ndarray :=
  mkArr (1%nat :: shape a) (data a).

(** [np.squeeze(a, axis=0)]: a first axis of size one is dropped, one of
    any other size is refused; a 0-d array has no axis and is handed back as
    it is. *)
Definition squeeze0 (a : ndarray) : result ndarray :=
  match shape a with
  | [] => Ok a
  | 1%nat :: s => Ok (mkArr s (data a))
  | _ :: _ => Raise ValueError
  end.

(** [np.linspace(start, stop, num, endpoint=False)]: [num] points
    [arange(num) * step + start] with [step = (stop - start) / num]. *)
Definition linspace (start stop : R) (num : nat) : ndarray :=
  let step := (stop - start) / INR num in
  array1 (map (fun i => INR i * step + start) (seq 0 num)).

(** scalar [c * a] *)
Definition np_scale (c : R) (a : ndarray) : ndarray :=
  mkArr (shape a) (map (Rmult c) (data a)).

(** [np.sin(a)] *)
Definition np_sin (a : ndarray) : ndarray :=
  mkArr (shape a) (map sin (data a)).

(** Broadcasting, on shapes written last axis first: two sizes are
    compatible when they are equal or one of them is 1; the shorter shape is
    padded with ones. *)
Fixpoint broadcast_rev (r1 r2 : list nat) : option (list nat) :=
  match r1, r2 with
  | [], r => Some r
  | r, [] => Some r
  | d1 :: r1', d2 :: r2' =>
      match broadcast_rev r1' r2' with
      | None => None
      | Some r =>
          if (d1 =? d2)%nat then Some (d1 :: r)
          else if (d1 =? 1)%nat then Some (d2 :: r)
          else if (d2 =? 1)%nat then Some (d1 :: r)
          else None
      end
  end.

(** The flat position, in an operand of reversed shape [r], of the element
    that lands at flat position [k] of the result of reversed shape [out]:
    an axis of size 1 is repeated, the others are followed. *)
Fixpoint operand_index (out r : list nat) (k : nat) : nat :=
  match out, r with
  | d :: out', e :: r' =>
      ((if (e =? 1)%nat then 0 else k mod d) + e * operand_index out' r' (k / d))%nat
  | _, _ => 0%nat
  end.

(** [a * b], elementwise with broadcasting; incompatible shapes raise. *)
Definition np_mul (a b : ndarray) : result ndarray :=
  let ra := rev (shape a) in
  let rb := rev (shape b) in
  match broadcast_rev ra rb with
  | None => Raise ValueError
  | Some r =>
      Ok (mkArr (rev r)
            (map (fun k => nth (operand_index r ra k) (data a) 0
                           * nth (operand_index r rb k) (data b) 0)
                 (seq 0 (fold_right Nat.mul 1%nat r))))
  end.

End Numpy.

(** ** notebooks/vocoder.ipynb *)

Module Vocoder.

Import Numpy.
Local Open Scope R_scope.
Local Open Scope result_scope.

(** Pedalboard plugins, with the keyword arguments the notebook passes (the
    remaining ones keep the library's defaults). *)
Inductive plugin : Type :=
| Chorus (rate_hz depth centre_delay_ms feedback mix : R)
| Phaser (rate_hz depth mix : R).

(** The library calls of the notebook.  Each may raise.
    - [librosa_load path] is [librosa.load(path, sr=None)]: the decoded
      samples and the file's own sample rate;
    - [pitch_shift y sr n_steps bins_per_octave res_type] is
      [librosa.effects.pitch_shift];
    - [butter order Wn btype] and [lfilter b a x] are SciPy's;
    - [board plugins x sample_rate] is [Pedalboard(plugins)(x, sample_rate)]. *)
Record AudioLibs : Type := {
  librosa_load : string -> result (ndarray * Z);
  pitch_shift : ndarray -> Z -> Z -> Z -> string -> result ndarray;
  butter : nat -> list R -> string -> result (list R * list R);
  lfilter : list R -> list R -> ndarray -> result ndarray;
  board : list plugin -> ndarray -> Z -> result ndarray
}.

(** First cell: the flags and parameters, as a record so that a statement
    can range over the flags; [notebook_config] holds the values the cell
    assigns. *)
Record config : Type := {
  DO_PITCH_SHIFT : bool;
  PITCH_SHIFT_STEPS : Z;
  DO_RING_MOD : bool;
  RING_MOD_FREQ : R;
  DO_BANDPASS : bool;
  BANDPASS_LOW : R;
  BANDPASS_HIGH : R;
  DO_FLANGER : bool;
  FLANGER_RATE : R;
  FLANGER_DEPTH : R;
  FLANGER_CENTRE_DELAY_MS : R;
  FLANGER_FEEDBACK : R;
  FLANGER_MIX : R;
  DO_PHASER : bool;
  PHASER_RATE : R;
  PHASER_DEPTH : R;
  PHASER_MIX : R;
  OUTPUT_FILE : string
}.

Definition notebook_config : config := {|
  DO_PITCH_SHIFT := false;
  PITCH_SHIFT_STEPS := -3;
  DO_RING_MOD := false;
  RING_MOD_FREQ := 400;
  DO_BANDPASS := false;
  BANDPASS_LOW := 300;
  BANDPASS_HIGH := 5000;
  DO_FLANGER := true;
  FLANGER_RATE := 1;
  FLANGER_DEPTH := 0.8;
  FLANGER_CENTRE_DELAY_MS := 3.0;
  FLANGER_FEEDBACK := 0.5;
  FLANGER_MIX := 0.2;
  DO_PHASER := true;
  PHASER_RATE := 1.5;
  PHASER_DEPTH := 0.7;
  PHASER_MIX := 0.5;
  OUTPUT_FILE := "corporate_voice.wav"
|}.

(** The same parameters with the five flags replaced. *)
Definition with_toggles (c : config) (pitch ring band flanger phaser : bool) : config := {|
  DO_PITCH_SHIFT := pitch;
  PITCH_SHIFT_STEPS := PITCH_SHIFT_STEPS c;
  DO_RING_MOD := ring;
  RING_MOD_FREQ := RING_MOD_FREQ c;
  DO_BANDPASS := band;
  BANDPASS_LOW := BANDPASS_LOW c;
  BANDPASS_HIGH := BANDPASS_HIGH c;
  DO_FLANGER := flanger;
  FLANGER_RATE := FLANGER_RATE c;
  FLANGER_DEPTH := FLANGER_DEPTH c;
  FLANGER_CENTRE_DELAY_MS := FLANGER_CENTRE_DELAY_MS c;
  FLANGER_FEEDBACK := FLANGER_FEEDBACK c;
  FLANGER_MIX := FLANGER_MIX c;
  DO_PHASER := phaser;
  PHASER_RATE := PHASER_RATE c;
  PHASER_DEPTH := PHASER_DEPTH c;
  PHASER_MIX := PHASER_MIX c;
  OUTPUT_FILE := OUTPUT_FILE c
|}.

(** The path read by the load cell. *)
Definition INPUT_FILE : string := "./temp/personal_daily_intro/dummy.mp3".

(** The names the cells share. *)
Record state : Type := mkState { y : ndarray; sr : Z; y_current : ndarray }.

(** Rebinding [y_current]. *)
Definition set_current (st : state) (a : ndarray) : state :=
  mkState (y st) (sr st) a.

(** What [sf.write] leaves on disk: the header fields, and the samples as
    the 16-bit codes of the subtype PCM_16. *)
Record sound_file : Type := mkFile {
  file_path : string;
  samplerate : Z;
  channels : nat;
  samples : list Z
}.

(** [lrint]: the nearest integer, a tie going to the even one. *)
Definition lrint (x : R) : Z :=
  let f := Int_part x in
  let d := x - IZR f in
  if Rlt_dec d (1 / 2) then f
  else if Rlt_dec (1 / 2) d then (f + 1)%Z
  else if Z.even f then f else (f + 1)%Z.

(** The PCM_16 code of a float sample.  soundfile switches libsndfile's
    clipping on for every file it opens, and libsndfile then scales the
    sample by 0x8000, stores 0x7FFF for a scaled value from 0x7FFF up and
    -0x8000 for one from -0x8000 down, and rounds the others. *)
Definition pcm_16 (x : R) : Z :=
  let scaled_value := x * 32768 in
  if Rle_dec 32767 scaled_value then 32767%Z
  else if Rle_dec scaled_value (-32768) then (-32768)%Z
  else lrint scaled_value.

(** The float a PCM_16 code stands for when the file is read. *)
Definition pcm_16_to_float (code : Z) : R := IZR code / 32768.

(** [sf.write(file, data, samplerate)] for a file name that ends in .wav, as
    [OUTPUT_FILE] does, and no subtype: the format is WAV and the subtype
    PCM_16.  A one-dimensional array is one channel, a two-dimensional one is
    frames by channels; other ranks are refused.  The rate goes into the
    header as it is given; whether libsndfile accepts the header is not
    looked at. *)
Definition sf_write (file : string) (a : ndarray) (rate : Z) : result sound_file :=
  match shape a with
  | [_] => Ok (mkFile file rate 1 (map pcm_16 (data a)))
  | [_; ch] => Ok (mkFile file rate ch (map pcm_16 (data a)))
  | _ => Raise (LibraryError "soundfile")
  end.

Section Notebook.

Variable L : AudioLibs.

(** [bandpass_filter(data, lowcut, highcut, fs, order=4)] *)
Definition bandpass_filter (data : ndarray) (lowcut highcut : R) (fs : Z) (order : nat)
  : result ndarray :=
  let nyquist := 0.5 * IZR fs in
  if Req_dec_T nyquist 0 then Raise ZeroDivisionError else
  let low := lowcut / nyquist in
  let high := highcut / nyquist in
  '(b, a) <- butter L order [low; high] "band" ;;
  lfilter L b a data.

(** The default of the [order] argument. *)
Definition default_order : nat := 4.

(** Load cell: [y, sr = librosa.load(..., sr=None)], [y_current = y.copy()]. *)
Definition cell_load : result state :=
  '(y0, sr0) <- librosa_load L INPUT_FILE ;;
  Ok (mkState y0 sr0 y0).

Variable c : config.

(** The bodies of the five [if DO_...:] statements. *)

Definition apply_pitch_shift (st : state) : result state :=
  y' <- pitch_shift L (y_current st) (sr st) (PITCH_SHIFT_STEPS c) 12 "kaiser_best" ;;
  Ok (set_current st y').

Definition apply_ring_mod (st : state) : result state :=
  n <- len (y_current st) ;;
  if (sr st =? 0)%Z then Raise ZeroDivisionError else
  let duration := INR n / IZR (sr st) in
  let t := linspace 0 duration n in
  let carrier := np_sin (np_scale (2.0 * PI * RING_MOD_FREQ c) t) in
  y' <- np_mul (y_current st) carrier ;;
  Ok (set_current st y').

Definition apply_bandpass (st : state) : result state :=
  y' <- bandpass_filter (y_current st) (BANDPASS_LOW c) (BANDPASS_HIGH c) (sr st)
          default_order ;;
  Ok (set_current st y').

Definition apply_flanger (st : state) : result state :=
  let y_2d := expand_dims0 (y_current st) in
  let flanger_plugin :=
    Chorus (FLANGER_RATE c) (FLANGER_DEPTH c) (FLANGER_CENTRE_DELAY_MS c)
           (FLANGER_FEEDBACK c) (FLANGER_MIX c) in
  processed <- board L [flanger_plugin] y_2d (sr st) ;;
  y' <- squeeze0 processed ;;
  Ok (set_current st y').

Definition apply_phaser (st : state) : result state :=
  let y_2d := expand_dims0 (y_current st) in
  processed <- board L [Phaser (PHASER_RATE c) (PHASER_DEPTH c) (PHASER_MIX c)] y_2d (sr st) ;;
  y' <- squeeze0 processed ;;
  Ok (set_current st y').

(** The effect cells; the [else] branches only print. *)

Definition cell_pitch_shift (st : state) : result state :=
  if DO_PITCH_SHIFT c then apply_pitch_shift st else Ok st.

Definition cell_ring_mod (st : state) : result state :=
  if DO_RING_MOD c then apply_ring_mod st else Ok st.

Definition cell_bandpass (st : state) : result state :=
  if DO_BANDPASS c then apply_bandpass st else Ok st.

Definition cell_flanger (st : state) : result state :=
  if DO_FLANGER c then apply_flanger st else Ok st.

Definition cell_phaser (st : state) : result state :=
  if DO_PHASER c then apply_phaser st else Ok st.

(** Last cell: [sf.write(OUTPUT_FILE, y_current, sr)]. *)
Definition cell_write (st : state) : result sound_file :=
  sf_write (OUTPUT_FILE c) (y_current st) (sr st).

(** The effect cells, top to bottom. *)
Definition effect_cells (st : state) : result state :=
  st <- cell_pitch_shift st ;;
  st <- cell_ring_mod st ;;
  st <- cell_bandpass st ;;
  st <- cell_flanger st ;;
  cell_phaser st.

(** The whole notebook, run top to bottom. *)
Definition notebook : result sound_file :=
  st <- cell_load ;;
  st <- effect_cells st ;;
  cell_write st.

End Notebook.

(** *** The Effects Processor as the specification words it

    A second description, not taken from the cells: the five effects by
    name, the fixed order, the toggles, and what each effect does to a mono
    waveform at a sample rate.  The theorems compare the cells with it. *)

Inductive effect : Type :=
| PitchShift
| RingModulation
| BandpassFilter
| Flanger
| PhaserSweep.

(** "in a fixed order: pitch shift, ring modulation, bandpass filter,
    flanger, phaser" *)
Definition spec_order : list effect :=
  [PitchShift; RingModulation; BandpassFilter; Flanger; PhaserSweep].

(** "Each effect is independently toggled" *)
Definition spec_toggle (c : config) (e : effect) : bool :=
  match e with
  | PitchShift => DO_PITCH_SHIFT c
  | RingModulation => DO_RING_MOD c
  | BandpassFilter => DO_BANDPASS c
  | Flanger => DO_FLANGER c
  | PhaserSweep => DO_PHASER c
  end.

(** The number of samples of a waveform. *)
Definition size (w : ndarray) : nat := fold_right Nat.mul 1%nat (shape w).

(** "output equals input sample-wise multiplied by sin(2 pi f t)", sample
    [i] being taken at time [i / rate]. *)
Definition spec_ring_modulation (f : R) (rate : Z) (w : ndarray) : ndarray :=
  mkArr (shape w)
        (map (fun i => nth i (data w) 0 * sin (2 * PI * f * (INR i / IZR rate)))
             (seq 0 (size w))).

(** "fourth-order Butterworth band filter between two configured cutoff
    frequencies, applied via direct-form linear filtering": the cutoffs as
    fractions of the Nyquist frequency, half the rate. *)
Definition spec_bandpass (L : AudioLibs) (lowcut highcut : R) (rate : Z) (w : ndarray)
  : result ndarray :=
  let nyquist := IZR rate / 2 in
  '(b, a) <- butter L 4 [lowcut / nyquist; highcut / nyquist] "band" ;;
  lfilter L b a w.

(** A mono waveform through one plugin of the effects library: the waveform
    is the only channel the board is given, and the only channel of its
    answer is the result. *)
Definition only_channel (processed : ndarray) : result ndarray :=
  match shape processed with
  | [1%nat; m] => Ok (mkArr [m] (data processed))
  | _ => Raise ValueError
  end.

Definition spec_plugin (L : AudioLibs) (p : plugin) (rate : Z) (w : ndarray) : result ndarray :=
  processed <- board L [p] (mkArr (1%nat :: shape w) (data w)) rate ;;
  only_channel processed.

(** One effect, with the constants of its rows of the table: the pitch
    shift counts semitones, twelve to the octave; the flanger is a chorus. *)
Definition spec_effect (L : AudioLibs) (c : config) (rate : Z) (e : effect) (w : ndarray)
  : result ndarray :=
  match e with
  | PitchShift => pitch_shift L w rate (PITCH_SHIFT_STEPS c) 12 "kaiser_best"
  | RingModulation => Ok (spec_ring_modulation (RING_MOD_FREQ c) rate w)
  | BandpassFilter => spec_bandpass L (BANDPASS_LOW c) (BANDPASS_HIGH c) rate w
  | Flanger =>
      spec_plugin L (Chorus (FLANGER_RATE c) (FLANGER_DEPTH c) (FLANGER_CENTRE_DELAY_MS c)
                            (FLANGER_FEEDBACK c) (FLANGER_MIX c)) rate w
  | PhaserSweep =>
      spec_plugin L (Phaser (PHASER_RATE c) (PHASER_DEPTH c) (PHASER_MIX c)) rate w
  end.

(** The effects of a list, one after the other; the first exception ends
    the chain. *)
Definition spec_apply (L : AudioLibs) (c : config) (rate : Z)
           (acc : result ndarray) (e : effect) : result ndarray :=
  w <- acc ;; spec_effect L c rate e w.

(** "apply, in a fixed order, a subset of" the effects: the enabled ones. *)
Definition spec_chain (L : AudioLibs) (c : config) (rate : Z) (w : ndarray) : result ndarray :=
  fold_left (spec_apply L c rate) (filter (spec_toggle c) spec_order) (Ok w).

(** *** What the theorems may ask of the libraries *)

(** [librosa.effects.pitch_shift] returns an array of the rank it was given. *)
Definition pitch_shift_keeps_ndim (L : AudioLibs) : Prop :=
  forall a rate steps bins res out,
    pitch_shift L a rate steps bins res = Ok out -> ndim out = ndim a.

(** [scipy.signal.lfilter] returns an array of the shape of its input. *)
Definition lfilter_keeps_shape (L : AudioLibs) : Prop :=
  forall b a x out, lfilter L b a x = Ok out -> shape out = shape x.

(** A Pedalboard returns as many channels as it was given. *)
Definition board_keeps_channels (L : AudioLibs) : Prop :=
  forall ps ch n rate x out,
    shape x = [ch; n] -> board L ps x rate = Ok out ->
    exists m, shape out = [ch; m].

(** None of the effect libraries raises. *)
Definition effects_return (L : AudioLibs) : Prop :=
  (forall a rate steps bins res, exists out, pitch_shift L a rate steps bins res = Ok out)
  /\ (forall order wn bt, exists ba, butter L order wn bt = Ok ba)
  /\ (forall b a x, exists out, lfilter L b a x = Ok out)
  /\ (forall ps x rate, exists out, board L ps x rate = Ok out).

(** *** Properties of one effect *)

(** An effect rebinds [y_current] and nothing else. *)
Definition keeps_names (e : state -> result state) : Prop :=
  forall st st', e st = Ok st' -> y st' = y st /\ sr st' = sr st.

(** An effect hands on a one-dimensional array when it is given one. *)
Definition keeps_mono (e : state -> result state) : Prop :=
  forall st st', ndim (y_current st) = 1%nat -> e st = Ok st' ->
                 ndim (y_current st') = 1%nat.

(** An effect given a one-dimensional array at a non-zero rate returns. *)
Definition goes_through (e : state -> result state) : Prop :=
  forall st, ndim (y_current st) = 1%nat -> sr st <> 0%Z -> exists st', e st = Ok st'.

(** *** A stand-in library, to run the notebook on concrete inputs *)

(** Direct-form filtering of one signal:
    [a0 * y[n] = sum b[k] x[n-k] - sum_(k>=1) a[k] y[n-k]].
    [xh] and [yh] are the earlier inputs and outputs, latest first. *)
Definition dot (cs hs : list R) : R :=
  fold_right Rplus 0 (map (fun p => fst p * snd p) (combine cs hs)).

Fixpoint direct_form (b a_tail : list R) (a0 : R) (xh yh x : list R) : list R :=
  match x with
  | [] => []
  | xn :: x' =>
      let yn := (dot b (xn :: xh) - dot a_tail yh) / a0 in
      yn :: direct_form b a_tail a0 (xn :: xh) (yn :: yh) x'
  end.

Definition stand_in_lfilter (b a : list R) (x : ndarray) : result ndarray :=
  Ok (mkArr (shape x) (direct_form b (tl a) (hd 1 a) [] [] (data x))).

(** The decoder yields [wave] at [rate]; pitch shift and the board pass the
    signal through; the filter coefficients are those of a two-tap average. *)
Definition stand_in (wave : list R) (rate : Z) : AudioLibs := {|
  librosa_load := fun _ => Ok (array1 wave, rate);
  pitch_shift := fun a _ _ _ _ => Ok a;
  butter := fun _ _ _ => Ok ([0.5; 0.5], [1]);
  lfilter := stand_in_lfilter;
  board := fun _ x _ => Ok x
|}.

(** A library whose boards answer with two channels, whatever they are
    given: the signal twice. *)
Definition two_channel_board (x : ndarray) : ndarray :=
  mkArr [2%nat; length (data x)] (data x ++ data x).

Definition stereo_library (wave : list R) (rate : Z) : AudioLibs := {|
  librosa_load := fun _ => Ok (array1 wave, rate);
  pitch_shift := fun a _ _ _ _ => Ok a;
  butter := fun _ _ _ => Ok ([0.5; 0.5], [1]);
  lfilter := stand_in_lfilter;
  board := fun _ x _ => Ok (two_channel_board x)
|}.

(** A library whose calls each leave a mark of their own, so that the order
    of the calls shows in the result: the pitch shift adds 1 to every sample,
    the filter is the two-tap average, a board of one Chorus doubles every
    sample and a board of one Phaser adds 10; other boards are refused. *)
Definition marking_board (ps : list plugin) (x : ndarray) : result ndarray :=
  match ps with
  | [Chorus _ _ _ _ _] => Ok (mkArr (shape x) (map (Rmult 2) (data x)))
  | [Phaser _ _ _] => Ok (mkArr (shape x) (map (Rplus 10) (data x)))
  | _ => Raise (LibraryError "pedalboard")
  end.

Definition marking_library (wave : list R) (rate : Z) : AudioLibs := {|
  librosa_load := fun _ => Ok (array1 wave, rate);
  pitch_shift := fun a _ _ _ _ => Ok (mkArr (shape a) (map (Rplus 1) (data a)));
  butter := fun _ _ _ => Ok ([0.5; 0.5], [1]);
  lfilter := stand_in_lfilter;
  board := fun ps x _ => marking_board ps x
|}.

(** Two samples at 16000 Hz, a rate at which the band of the notebook lies
    below the Nyquist frequency, and the notebook state right after they are
    loaded. *)
Definition probe_wave : list R := [1; 3].

Definition probe_state : state :=
  mkState (array1 probe_wave) 16000 (array1 probe_wave).

(** A short signal for the concrete runs: two samples at 2 Hz, and the
    notebook state right after they are loaded. *)
Definition sample_wave : list R := [1; -1].

Definition sample_state : state := mkState (array1 sample_wave) 2 (array1 sample_wave).

End Vocoder.

(** ** run_jobs.sh *)

Module RunJobs.

Local Open Scope string_scope.

Definition environment : Type := list (string * string).

(** The shell's variables: a name, its value, and whether it is exported. *)
Definition variables : Type := list (string * (string * bool)).

Definition lookup (name : string) (vars : variables) : option (string * bool) :=
  match find (fun p => String.eqb (fst p) name) vars with
  | Some p => Some (snd p)
  | None => None
  end.

(** ["$NAME"]: an unset variable expands to nothing. *)
Definition getvar (name : string) (vars : variables) : string :=
  match lookup name vars with
  | Some (value, _) => value
  | None => ""
  end.

(** [NAME=value].  Under [set -o allexport] the variable becomes exported;
    otherwise it keeps the mark it has. *)
Definition assign (allexport : bool) (name value : string) (vars : variables) : variables :=
  let mark := match lookup name vars with Some (_, m) => m | None => false end in
  (name, (value, (allexport || mark)%bool))
    :: filter (fun p => negb (String.eqb (fst p) name)) vars.


(** The environment a started process receives: the exported variables. *)
Definition environ_of (vars : variables) : environment :=
  map (fun p => (fst p, fst (snd p))) (filter (fun p => snd (snd p)) vars).

(** The variables a shell starts with: its environment, all exported. *)
Definition inherited (env : environment) : variables :=
  map (fun p => (fst p, (snd p, true))) env.

(** What the wrapper meets on the machine.
    - [is_dir path] says whether [cd path] succeeds, and [cd_complaint path]
      is the line bash writes to standard error when it does not;
    - [is_file path] is [[ -f path ]];
    - [dotenv] holds the NAME=value lines of the project's .env file, in
      order; they may assign any variable, the wrapper's own included;
    - [activate] and [deactivate] are the effect, on the variables, of the
      virtual environment's two commands;
    - [python argv cwd env] is the exit status of that process;
    - [echo_ok line] says whether writing [line] to standard output
      succeeds, and [echo_complaint line] is what bash writes to standard
      error when it does not.
    Standard error is taken to be open.  Sourced files are taken to assign
    variables only.  What the started process writes itself is not
    recorded. *)
Record host : Type := {
  script_name : string;
  start_dir : string;
  start_environ : environment;
  is_dir : string -> bool;
  cd_complaint : string -> string;
  is_file : string -> bool;
  dotenv : list (string * string);
  activate : variables -> variables;
  deactivate : variables -> variables;
  python : list string -> string -> environment -> nat;
  echo_ok : string -> bool;
  echo_complaint : string -> string
}.

(** The shell as the script runs: working directory, variables, [$?], the
    lines the shell sends to each stream (those echoed, and bash's own
    complaints), and the commands started. *)
Record shell : Type := mkShell {
  cwd : string;
  vars : variables;
  status : nat;
  stdout : list string;
  stderr : list string;
  invoked : list (list string)
}.

(** A command either goes on to the next one or ends the script. *)
Inductive outcome (A : Type) : Type :=
| Next (a : A)
| Exit (code : nat).

Arguments Next {A} a.
Arguments Exit {A} code.

Definition sh (A : Type) : Type := shell -> outcome A * shell.

Definition sh_ret {A : Type} (a : A) : sh A := fun s => (Next a, s).

Definition sh_bind {A B : Type} (m : sh A) (k : A -> sh B) : sh B :=
  fun s =>
    match m s with
    | (Next a, s') => k a s'
    | (Exit n, s') => (Exit n, s')
    end.

Declare Scope sh_scope.
Delimit Scope sh_scope with sh.
Notation "x <- m ;; k" := (sh_bind m (fun x => k))
  (at level 61, m at next level, right associativity) : sh_scope.
Notation "m ;;; k" := (sh_bind m (fun _ => k))
  (at level 61, right associativity) : sh_scope.

Local Open Scope sh_scope.

Definition set_status (n : nat) (s : shell) : shell :=
  mkShell (cwd s) (vars s) n (stdout s) (stderr s) (invoked s).

(** [echo line]: the line is sent to standard output; when the write fails
    the status is 1 and bash complains on standard error. *)
Definition echo (h : host) (line : string) : sh unit :=
  fun s =>
    if echo_ok h line
    then (Next tt, mkShell (cwd s) (vars s) 0 (stdout s ++ [line]) (stderr s) (invoked s))
    else (Next tt, mkShell (cwd s) (vars s) 1 (stdout s ++ [line])
                           (stderr s ++ [echo_complaint h line]) (invoked s)).

(** [echo line >&2] *)
Definition echo_err (line : string) : sh unit :=
  fun s => (Next tt, mkShell (cwd s) (vars s) 0 (stdout s) (stderr s ++ [line]) (invoked s)).

(** [exit n] *)
Definition exit {A : Type} (n : nat) : sh A := fun s => (Exit n, s).

(** A test command: its truth is also its status. *)
Definition test (b : bool) : sh bool :=
  fun s => (Next b, set_status (if b then 0 else 1) s).

(** A relative path is looked up from the working directory. *)
Definition resolve (dir path : string) : string :=
  if prefix "/" path then path else dir ++ "/" ++ path.

(** [[ -f path ]] *)
Definition test_f (h : host) (path : string) : sh bool :=
  fun s => test (is_file h (resolve (cwd s) path)) s.

(** [cd dir]; on failure bash complains on standard error. *)
Definition cd (h : host) (dir : string) : sh bool :=
  fun s =>
    if is_dir h (resolve (cwd s) dir)
    then (Next true, mkShell (resolve (cwd s) dir) (vars s) 0 (stdout s) (stderr s) (invoked s))
    else (Next false, mkShell (cwd s) (vars s) 1 (stdout s)
                              (stderr s ++ [cd_complaint h (resolve (cwd s) dir)])
                              (invoked s)).

(** [if ...; then body; fi]: with the condition false the statement's
    status is 0. *)
Definition when (b : bool) (body : sh unit) : sh unit :=
  if b then body else fun s => (Next tt, set_status 0 s).

(** [NAME=value], outside [allexport]. *)
Definition set_var (name value : string) : sh unit :=
  fun s => (Next tt, mkShell (cwd s) (assign false name value (vars s)) 0
                             (stdout s) (stderr s) (invoked s)).

(** [set -o allexport; source .env; set +o allexport] *)
Definition source_dotenv (h : host) : sh unit :=
  fun s =>
    (Next tt,
     mkShell (cwd s) (fold_left (fun vs p => assign true (fst p) (snd p) vs) (dotenv h) (vars s))
             0 (stdout s) (stderr s) (invoked s)).

(** [source .../bin/activate] *)
Definition source_activate (h : host) : sh unit :=
  fun s => (Next tt, mkShell (cwd s) (activate h (vars s)) 0 (stdout s) (stderr s) (invoked s)).

(** [deactivate] *)
Definition run_deactivate (h : host) : sh unit :=
  fun s => (Next tt, mkShell (cwd s) (deactivate h (vars s)) 0 (stdout s) (stderr s) (invoked s)).

(** Starting a process: it is recorded, and its exit status becomes [$?]. *)
Definition command (h : host) (argv : list string) : sh unit :=
  fun s =>
    (Next tt,
     mkShell (cwd s) (vars s) (python h argv (cwd s) (environ_of (vars s)))
             (stdout s) (stderr s) (invoked s ++ [argv])).

(** [$?] *)
Definition last_status : sh nat := fun s => (Next (status s), s).

(** ["$NAME"] *)
Definition expand (name : string) : sh string := fun s => (Next (getvar name (vars s)), s).

Definition project_dir (user : string) : string :=
  "/home/" ++ user ++ "/Projects/rss-personal-radio".

Definition activate_path (user : string) : string :=
  "/home/" ++ user ++ "/.pyenv/versions/.venv/bin/activate".

(** The script, step by step; [args] are the positional parameters.  Every
    ["${NAME}"] is expanded where the script expands it. *)
Definition run_jobs (h : host) (args : list string) : sh unit :=
  (* 1 *)
  no_arg <- test (length args <? 1)%nat ;;
  when no_arg (echo h ("Usage: " ++ script_name h ++ " <username>") ;;; exit 1) ;;;
  (* 2 *)
  set_var "USER_NAME" (nth 0 args "") ;;;
  USER_NAME <- expand "USER_NAME" ;;
  set_var "PROJECT_DIR" (project_dir USER_NAME) ;;;
  (* 3 *)
  PROJECT_DIR <- expand "PROJECT_DIR" ;;
  entered <- cd h PROJECT_DIR ;;
  when (negb entered)
    (PROJECT_DIR <- expand "PROJECT_DIR" ;;
     echo h ("Project directory not found at " ++ PROJECT_DIR ++ "; exiting.") ;;; exit 1) ;;;
  (* 4 *)
  has_env <- test_f h ".env" ;;
  when has_env (source_dotenv h) ;;;
  (* 6 *)
  USER_NAME <- expand "USER_NAME" ;;
  has_venv <- test_f h (activate_path USER_NAME) ;;
  (if has_venv then source_activate h
   else
     USER_NAME <- expand "USER_NAME" ;;
     echo h ("Could not find virtual environment at " ++ activate_path USER_NAME ++ ".") ;;;
     echo h "Please adjust the path as needed." ;;;
     exit 1) ;;;
  (* 7 *)
  echo h "Running daily_intro.py..." ;;;
  command h ["python"; "daily_intro.py"] ;;;
  st <- last_status ;;
  when (negb (st =? 0)%nat) (echo_err "daily_intro.py encountered an error.") ;;;
  (* 9 *)
  venv <- expand "VIRTUAL_ENV" ;;
  when (negb (String.eqb venv "")) (run_deactivate h) ;;;
  echo h "Jobs completed.".

Definition start (h : host) : shell :=
  mkShell (start_dir h) (inherited (start_environ h)) 0 [] [] [].

(** The exit status of the script and the shell it leaves: an [exit n]
    gives [n], running off the end gives the status of the last command. *)
Definition run (h : host) (args : list string) : nat * shell :=
  match run_jobs h args (start h) with
  | (Next _, s) => (status s, s)
  | (Exit n, s) => (n, s)
  end.

(** The variables after step 2 and after step 4, for the first argument
    [user]. *)
Definition vars_at_step_2 (h : host) (user : string) : variables :=
  assign false "PROJECT_DIR" (project_dir user)
         (assign false "USER_NAME" user (inherited (start_environ h))).

Definition vars_at_step_4 (h : host) (user : string) : variables :=
  if is_file h (project_dir user ++ "/.env")
  then fold_left (fun vs p => assign true (fst p) (snd p) vs) (dotenv h) (vars_at_step_2 h user)
  else vars_at_step_2 h user.

(** The value of USER_NAME when step 6 expands it. *)
Definition user_at_step_6 (h : host) (user : string) : string :=
  getvar "USER_NAME" (vars_at_step_4 h user).


(** The exit status of [python daily_intro.py] where the script starts it. *)
Definition daily_intro_status (h : host) (args : list string) : nat :=
  let user := nth 0 args "" in
  python h ["python"; "daily_intro.py"] (project_dir user)
         (environ_of (activate h (vars_at_step_4 h user))).

(** What bash writes to standard error for those of [lines] whose echo
    fails. *)
Definition complaints (h : host) (lines : list string) : list string :=
  flat_map (fun line => if echo_ok h line then [] else [echo_complaint h line]) lines.







End RunJobs.

(** ** notebooks/daily_intro.ipynb *)

Module DailyIntro.

Local Open Scope string_scope.

(** [VoiceSettings(stability=..., similarity_boost=..., style=...,
    use_speaker_boost=...)] *)
Record VoiceSettings : Type := {
  stability : R;
  similarity_boost : R;
  style : R;
  use_speaker_boost : bool
}.

(** What [client.text_to_speech.convert] hands back: an iterator, here the
    chunks it yields and, when it breaks off before its end, the exception
    it raises then. *)
Definition stream : Type := (list (list Byte.byte) * option exn)%type.

(** The calls the notebook makes, in the order it makes them. *)
Inductive event : Type :=
| Print (line : string)
| Makedirs (path : string)
| Convert (text voice_id model_id output_format : string) (voice_settings : VoiceSettings)
| Open (path : string)
| Write (path : string) (chunk : list Byte.byte)
| Close (path : string)
| VocodeAudio (input_path output_path : string)
| UpdateTrelloCardAudio (card_name file_path : string).

(** What the notebook's calls answer.  [strftime_now fmt] is
    [datetime.datetime.now().strftime(fmt)]; for the others [None] (or [Ok])
    is a normal return and an exception is the one the call raises.
    [write path sofar chunk] answers [mp3_file.write(chunk)] when [sofar]
    has been handed to the file before; [close path] answers the closing of
    the file at the end of the [with] block.  [vocode_audio] and
    [update_trello_card_audio] are the two functions the notebook imports
    from the project's vocoder and Trello modules.  Constructing the client
    makes no call, and printing is taken to return. *)
Record services : Type := {
  strftime_now : string -> string;
  makedirs : string -> option exn;
  convert : string -> string -> string -> string -> VoiceSettings -> result stream;
  open_wb : string -> option exn;
  write : string -> list Byte.byte -> list Byte.byte -> option exn;
  close : string -> option exn;
  vocode_audio : string -> string -> option exn;
  update_trello_card_audio : string -> string -> option exn
}.

(** A step extends the log of calls and returns or raises. *)
Definition io (A : Type) : Type := list event -> result A * list event.

Definition io_ret {A : Type} (a : A) : io A := fun log => (Ok a, log).

Definition io_raise {A : Type} (e : exn) : io A := fun log => (Raise e, log).

Definition io_bind {A B : Type} (m : io A) (k : A -> io B) : io B :=
  fun log =>
    match m log with
    | (Ok a, log') => k a log'
    | (Raise e, log') => (Raise e, log')
    end.

Declare Scope io_scope.
Delimit Scope io_scope with io.
Notation "x <- m ;; k" := (io_bind m (fun x => k))
  (at level 61, m at next level, right associativity) : io_scope.
Notation "m ;;; k" := (io_bind m (fun _ => k))
  (at level 61, right associativity) : io_scope.

Local Open Scope io_scope.

(** A call that returns nothing: it is logged, then it returns or raises. *)
Definition call (ev : event) (answer : option exn) : io unit :=
  fun log =>
    match answer with
    | None => (Ok tt, (log ++ [ev])%list)
    | Some e => (Raise e, (log ++ [ev])%list)
    end.

(** A call that returns a value. *)
Definition call_for {A : Type} (ev : event) (answer : result A) : io A :=
  fun log => (answer, (log ++ [ev])%list).

Definition print (line : string) : io unit := call (Print line) None.

(** The bytes a log has handed to the file at [path]. *)
Definition written (path : string) (log : list event) : list Byte.byte :=
  flat_map (fun ev =>
              match ev with
              | Write p chunk => if String.eqb p path then chunk else []
              | _ => []
              end) log.

(** [mp3_file.write(chunk)] *)
Definition file_write (sv : services) (path : string) (chunk : list Byte.byte) : io unit :=
  fun log => call (Write path chunk) (write sv path (written path log) chunk) log.

(** [path.endswith('/')] *)
Fixpoint ends_with_sep (path : string) : bool :=
  match path with
  | EmptyString => false
  | String ch EmptyString => Ascii.eqb ch "/"
  | String _ rest => ends_with_sep rest
  end.

(** [os.path.join(a, b)] on a POSIX system. *)
Definition os_path_join (a b : string) : string :=
  if prefix "/" b then b
  else if (String.eqb a "" || ends_with_sep a)%bool then a ++ b
  else a ++ "/" ++ b.

(** [for chunk in audio: body(chunk)] *)
Fixpoint for_each (chunks : list (list Byte.byte)) (body : list Byte.byte -> io unit)
  : io unit :=
  match chunks with
  | [] => io_ret tt
  | chunk :: rest => body chunk ;;; for_each rest body
  end.

Definition for_chunk_in (audio : stream) (body : list Byte.byte -> io unit) : io unit :=
  for_each (fst audio) body ;;;
  match snd audio with
  | None => io_ret tt
  | Some e => io_raise e
  end.

(** [with open(path, "wb") as f: body]: the file is closed on the way out,
    also when the body raises; an exception of the closing is the one that
    goes on. *)
Definition with_open_wb (sv : services) (path : string) (body : io unit) : io unit :=
  call (Open path) (open_wb sv path) ;;;
  fun log =>
    let (r, log') := body log in
    match close sv path with
    | Some e => (Raise e, (log' ++ [Close path])%list)
    | None => (r, (log' ++ [Close path])%list)
    end.

(** The notebook, cell after cell. *)
Definition daily_intro (sv : services) : io unit :=
  let formatted_date := strftime_now sv "%A, %B %d, %Y" in
  print formatted_date ;;;
  let dummy_text := "Good morning, Standard! Today is " ++ formatted_date in
  let personal_daily_intro_dir := os_path_join "temp" "personal_daily_intro" in
  call (Makedirs personal_daily_intro_dir) (makedirs sv personal_daily_intro_dir) ;;;
  let settings := Build_VoiceSettings 0.5 0.75 0.4 true in
  audio <- call_for
             (Convert dummy_text "15ykVVhNtZjeRtlW8QZC" "eleven_multilingual_v2"
                      "mp3_44100_128" settings)
             (convert sv dummy_text "15ykVVhNtZjeRtlW8QZC" "eleven_multilingual_v2"
                      "mp3_44100_128" settings) ;;
  let output_mp3_path := os_path_join personal_daily_intro_dir "eleven_personal_intro.mp3" in
  with_open_wb sv output_mp3_path
    (for_chunk_in audio (fun chunk => file_write sv output_mp3_path chunk)) ;;;
  print ("Saved MP3 to " ++ output_mp3_path) ;;;
  let vocoded_output_path :=
    os_path_join personal_daily_intro_dir "eleven_personal_intro.wav" in
  call (VocodeAudio output_mp3_path vocoded_output_path)
       (vocode_audio sv output_mp3_path vocoded_output_path) ;;;
  call (UpdateTrelloCardAudio "Daily Wakeup Intro" vocoded_output_path)
       (update_trello_card_audio sv "Daily Wakeup Intro" vocoded_output_path).

(** A run from an empty log. *)
Definition run (sv : services) : result unit * list event := daily_intro sv [].

Definition is_upload (ev : event) : bool :=
  match ev with UpdateTrelloCardAudio _ _ => true | _ => false end.

Definition is_vocode (ev : event) : bool :=
  match ev with VocodeAudio _ _ => true | _ => false end.

(** The values the notebook's names hold. *)
Definition intro_dir : string := "temp/personal_daily_intro".
Definition mp3_path : string := "temp/personal_daily_intro/eleven_personal_intro.mp3".
Definition wav_path : string := "temp/personal_daily_intro/eleven_personal_intro.wav".
Definition intro_settings : VoiceSettings := Build_VoiceSettings 0.5 0.75 0.4 true.

Definition greeting (sv : services) : string :=
  "Good morning, Standard! Today is " ++ strftime_now sv "%A, %B %d, %Y".

(** The answer to the one text-to-speech request of a run. *)
Definition requested (sv : services) : result stream :=
  convert sv (greeting sv) "15ykVVhNtZjeRtlW8QZC" "eleven_multilingual_v2" "mp3_44100_128"
          intro_settings.

(** The write loop over [chunks], [sofar] being in the file already: the
    chunks handed to [write], the last of them being the one whose write
    raised, if one did, and that exception. *)
Fixpoint attempts (sv : services) (path : string) (sofar : list Byte.byte)
         (chunks : list (list Byte.byte)) : list (list Byte.byte) * option exn :=
  match chunks with
  | [] => ([], None)
  | chunk :: rest =>
      match write sv path sofar chunk with
      | Some e => ([chunk], Some e)
      | None =>
          let (tried, failure) := attempts sv path (sofar ++ chunk) rest in
          (chunk :: tried, failure)
      end
  end.

(** Every write of the loop over [chunks] returned. *)
Definition writes_return (sv : services) (chunks : list (list Byte.byte)) : Prop :=
  snd (attempts sv mp3_path [] chunks) = None.

(** Every call before the upload returned normally. *)
Definition all_went_well (sv : services) : Prop :=
  makedirs sv intro_dir = None
  /\ (exists chunks, requested sv = Ok (chunks, None) /\ writes_return sv chunks)
  /\ open_wb sv mp3_path = None
  /\ close sv mp3_path = None
  /\ vocode_audio sv mp3_path wav_path = None.

(** Services for concrete runs: the stream yields [chunks] and then breaks
    off with [broken], if any; a write raises once [full] bytes are in the
    file; everything else returns normally. *)
Definition studio (chunks : list (list Byte.byte)) (broken : option exn) (full : nat)
  : services := {|
  strftime_now := fun _ => "Sunday, December 21, 2025";
  makedirs := fun _ => None;
  convert := fun _ _ _ _ _ => Ok (chunks, broken);
  open_wb := fun _ => None;
  write := fun _ sofar _ =>
    if (full <=? length sofar)%nat then Some (LibraryError "No space left on device")
    else None;
  close := fun _ => None;
  vocode_audio := fun _ _ => None;
  update_trello_card_audio := fun _ _ => None
|}.

End DailyIntro.

(** * Properties *)

(** ** The result monad *)

Lemma bind_Ok {A B : Type} (m : result A) (k : A -> result B) (b : B) :
  bind m k = Ok b -> exists a, m = Ok a /\ k a = Ok b.
Proof.
  destruct m as [a|e]; simpl; intros H.
  - exists a. split; [reflexivity | exact H].
  - discriminate H.
Qed.

Lemma bind_assoc {A B C : Type} (m : result A) (f : A -> result B) (g : B -> result C) :
  bind (bind m f) g = bind m (fun a => bind (f a) g).
Proof. destruct m; reflexivity. Qed.

Lemma bind_ret_r {A : Type} (m : result A) : bind m (fun a => Ok a) = m.
Proof. destruct m; reflexivity. Qed.

Lemma bind_ext {A B : Type} (m : result A) (k k' : A -> result B) :
  (forall a, k a = k' a) -> bind m k = bind m k'.
Proof. intros H. destruct m; simpl; [apply H | reflexivity]. Qed.

(** ** Arrays of one dimension *)

Module NumpyFacts.

Import Numpy.
Local Open Scope R_scope.

Lemma nth_map_seq (f : nat -> R) (n i : nat) :
  (i < n)%nat -> nth i (map f (seq 0 n)) 0 = f i.
Proof.
  intros Hi.
  rewrite (nth_indep _ 0 (f 0%nat)) by (rewrite length_map, length_seq; exact Hi).
  rewrite (map_nth f (seq 0 n) 0%nat i), seq_nth by exact Hi.
  reflexivity.
Qed.

Lemma operand_index_1d (n k : nat) :
  (k < n)%nat -> operand_index [n] [n] k = k.
Proof.
  intros Hk. simpl.
  destruct (Nat.eqb_spec n 1) as [E|E].
  - lia.
  - rewrite Nat.mod_small by exact Hk. lia.
Qed.

(** Two arrays of the same single dimension multiply position by position. *)
Lemma np_mul_same_1d (a b : ndarray) (n : nat) :
  shape a = [n] -> shape b = [n] ->
  np_mul a b =
  Ok (mkArr [n] (map (fun k => nth k (data a) 0 * nth k (data b) 0) (seq 0 n))).
Proof.
  intros Ha Hb. unfold np_mul. rewrite Ha, Hb.
  cbn [rev app broadcast_rev]. rewrite Nat.eqb_refl.
  cbn [rev app fold_right]. rewrite Nat.mul_1_r.
  f_equal. f_equal.
  apply map_ext_in. intros k Hk. apply in_seq in Hk.
  rewrite operand_index_1d by lia. reflexivity.
Qed.

Lemma linspace_shape (start stop : R) (n : nat) : shape (linspace start stop n) = [n].
Proof. unfold linspace, array1. cbn [shape]. rewrite length_map, length_seq. reflexivity. Qed.

Lemma linspace_nth (start stop : R) (n i : nat) :
  (i < n)%nat ->
  nth i (data (linspace start stop n)) 0 = INR i * ((stop - start) / INR n) + start.
Proof.
  intros Hi. unfold linspace, array1. cbn [data].
  apply (nth_map_seq (fun i => INR i * ((stop - start) / INR n) + start)). exact Hi.
Qed.

Lemma squeeze0_one_channel (out : ndarray) (m : nat) :
  shape out = [1%nat; m] -> squeeze0 out = Ok (mkArr [m] (data out)).
Proof. intros Hout. unfold squeeze0. rewrite Hout. reflexivity. Qed.

End NumpyFacts.

(** ** The effects notebook *)

Module VocoderSpec.

Import Numpy NumpyFacts Vocoder.
Local Open Scope R_scope.
Local Open Scope result_scope.

(** *** Ring modulation *)

(** The carrier of the ring-modulation cell, sample by sample. *)
Lemma carrier_nth (freq : R) (rate : Z) (n i : nat) :
  (i < n)%nat -> rate <> 0%Z ->
  nth i (data (np_sin (np_scale (2.0 * PI * freq) (linspace 0 (INR n / IZR rate) n)))) 0
  = sin (2 * PI * freq * (INR i / IZR rate)).
Proof.
  intros Hi Hrate.
  unfold np_sin, np_scale, linspace, array1. cbn [data shape].
  rewrite !map_map.
  rewrite (nth_map_seq
             (fun k => sin (2.0 * PI * freq * (INR k * ((INR n / IZR rate - 0) / INR n) + 0)))
             n i Hi).
  f_equal.
  assert (Hn : INR n <> 0) by (apply not_0_INR; lia).
  assert (Hr : IZR rate <> 0) by (intros E; apply Hrate; apply eq_IZR; exact E).
  replace 2.0 with 2 by lra.
  field. split; assumption.
Qed.

(** C1.  With ring modulation enabled, the ring-modulation cell turns a
    one-dimensional waveform [v] of length [n] at a non-zero sample rate
    [sr] into a one-dimensional waveform [w] of the same length with
    [w[i] = v[i] * sin(2 pi RING_MOD_FREQ t[i])] for every [i < n], where
    [t = linspace(0, n/sr, n, endpoint=False)], so [t[i] = i * ((n/sr)/n)
    = i/sr]; [y] and [sr] are left as they were. *)
Theorem ring_mod_samples (c : config) (st : state) (v : list R) :
  DO_RING_MOD c = true ->
  y_current st = array1 v ->
  sr st <> 0%Z ->
  exists w,
    cell_ring_mod c st = Ok (mkState (y st) (sr st) (array1 w))
    /\ length w = length v
    /\ forall i, (i < length v)%nat ->
         let n := length v in
         let t := linspace 0 (INR n / IZR (sr st)) n in
         nth i (data t) 0 = INR i * ((INR n / IZR (sr st)) / INR n)
         /\ nth i (data t) 0 = INR i / IZR (sr st)
         /\ nth i w 0 = nth i v 0 * sin (2 * PI * RING_MOD_FREQ c * nth i (data t) 0).
Proof.
  intros Hon Hv Hsr.
  set (n := length v).
  set (carrier := np_sin (np_scale (2.0 * PI * RING_MOD_FREQ c)
                                   (linspace 0 (INR n / IZR (sr st)) n))).
  assert (Hcs : shape carrier = [n]).
  { unfold carrier, np_sin, np_scale. cbn [shape]. apply linspace_shape. }
  exists (map (fun k => nth k v 0 * nth k (data carrier) 0) (seq 0 n)).
  assert (Hlen : length (map (fun k => nth k v 0 * nth k (data carrier) 0) (seq 0 n)) = n)
    by (rewrite length_map, length_seq; reflexivity).
  split; [| split].
  - unfold cell_ring_mod. rewrite Hon. unfold apply_ring_mod.
    rewrite Hv. unfold len. cbn [array1 shape bind]. fold n.
    destruct (Z.eqb_spec (sr st) 0) as [E|_]; [contradiction|].
    fold carrier.
    rewrite (np_mul_same_1d (array1 v) carrier n eq_refl Hcs).
    cbn [bind data]. unfold set_current, array1. rewrite Hlen. reflexivity.
  - exact Hlen.
  - intros i Hi. cbv zeta. fold n in Hi |- *.
    assert (Hn : INR n <> 0) by (apply not_0_INR; lia).
    assert (Hr : IZR (sr st) <> 0) by (intros E; apply Hsr; apply eq_IZR; exact E).
    assert (Ht : nth i (data (linspace 0 (INR n / IZR (sr st)) n)) 0 = INR i / IZR (sr st)).
    { rewrite linspace_nth by exact Hi. field. split; assumption. }
    split; [| split].
    + rewrite Ht. field. split; assumption.
    + exact Ht.
    + rewrite (nth_map_seq (fun k => nth k v 0 * nth k (data carrier) 0) n i Hi).
      f_equal. unfold carrier. rewrite carrier_nth by assumption.
      rewrite Ht. reflexivity.
Qed.

Lemma ring_mod_samples_witness :
  let c := with_toggles notebook_config false true false false false in
  DO_RING_MOD c = true
  /\ y_current sample_state = array1 sample_wave
  /\ sr sample_state <> 0%Z
  /\ exists w,
       cell_ring_mod c sample_state = Ok (mkState (y sample_state) (sr sample_state) (array1 w))
       /\ length w = length sample_wave
       /\ forall i, (i < length sample_wave)%nat ->
            let n := length sample_wave in
            let t := linspace 0 (INR n / IZR (sr sample_state)) n in
            nth i (data t) 0 = INR i * ((INR n / IZR (sr sample_state)) / INR n)
            /\ nth i (data t) 0 = INR i / IZR (sr sample_state)
            /\ nth i w 0 = nth i sample_wave 0 * sin (2 * PI * RING_MOD_FREQ c * nth i (data t) 0).
Proof.
  cbv zeta.
  split; [reflexivity | split; [reflexivity | split; [discriminate |]]].
  apply (ring_mod_samples (with_toggles notebook_config false true false false false)
           sample_state sample_wave).
  - reflexivity.
  - reflexivity.
  - discriminate.
Defined.

(** *** What a single effect does to the shared names *)

Lemma ndim_one (a : ndarray) : ndim a = 1%nat <-> exists n, shape a = [n].
Proof.
  unfold ndim. split.
  - destruct (shape a) as [|n [|m s]]; cbn [length]; intros H; try discriminate H.
    exists n. reflexivity.
  - intros [n H]. rewrite H. reflexivity.
Qed.

Section Cells.

Variable L : AudioLibs.
Variable c : config.

Ltac invert_bind H :=
  repeat match type of H with
         | bind ?m ?k = Ok _ =>
             let a := fresh "a" in
             let Ha := fresh "Ha" in
             apply bind_Ok in H; destruct H as (a & Ha & H)
         | Ok _ = Ok _ => injection H as H
         end.

Lemma apply_pitch_shift_names : keeps_names (apply_pitch_shift L c).
Proof.
  intros st st' H. unfold apply_pitch_shift in H. invert_bind H.
  subst st'. split; reflexivity.
Qed.

Lemma apply_ring_mod_names : keeps_names (apply_ring_mod c).
Proof.
  intros st st' H. unfold apply_ring_mod in H.
  apply bind_Ok in H. destruct H as (n & _ & H).
  destruct (sr st =? 0)%Z; [discriminate H |].
  invert_bind H. subst st'. split; reflexivity.
Qed.

Lemma apply_bandpass_names : keeps_names (apply_bandpass L c).
Proof.
  intros st st' H. unfold apply_bandpass in H. invert_bind H.
  subst st'. split; reflexivity.
Qed.

Lemma apply_flanger_names : keeps_names (apply_flanger L c).
Proof.
  intros st st' H. unfold apply_flanger in H. invert_bind H.
  subst st'. split; reflexivity.
Qed.

Lemma apply_phaser_names : keeps_names (apply_phaser L c).
Proof.
  intros st st' H. unfold apply_phaser in H. invert_bind H.
  subst st'. split; reflexivity.
Qed.

Lemma toggled_names (b : bool) (e : state -> result state) :
  keeps_names e -> keeps_names (fun st => if b then e st else Ok st).
Proof.
  intros He st st' H. destruct b.
  - apply He. exact H.
  - injection H as <-. split; reflexivity.
Qed.

Lemma effect_cells_names : keeps_names (effect_cells L c).
Proof.
  intros st st' H. unfold effect_cells in H.
  apply bind_Ok in H. destruct H as (s1 & H1 & H).
  apply bind_Ok in H. destruct H as (s2 & H2 & H).
  apply bind_Ok in H. destruct H as (s3 & H3 & H).
  apply bind_Ok in H. destruct H as (s4 & H4 & H5).
  apply (toggled_names _ _ apply_pitch_shift_names) in H1.
  apply (toggled_names _ _ apply_ring_mod_names) in H2.
  apply (toggled_names _ _ apply_bandpass_names) in H3.
  apply (toggled_names _ _ apply_flanger_names) in H4.
  apply (toggled_names _ _ apply_phaser_names) in H5.
  destruct H1 as [A1 B1], H2 as [A2 B2], H3 as [A3 B3], H4 as [A4 B4], H5 as [A5 B5].
  split; congruence.
Qed.

Hypothesis pitch_ndim : pitch_shift_keeps_ndim L.
Hypothesis lfilter_shape : lfilter_keeps_shape L.
Hypothesis board_channels : board_keeps_channels L.

Lemma apply_pitch_shift_mono : keeps_mono (apply_pitch_shift L c).
Proof.
  intros st st' H1 H. unfold apply_pitch_shift in H. invert_bind H.
  subst st'. cbn [set_current y_current].
  rewrite (pitch_ndim _ _ _ _ _ _ Ha). exact H1.
Qed.

Lemma apply_ring_mod_mono : keeps_mono (apply_ring_mod c).
Proof.
  intros st st' H1 H. apply ndim_one in H1. destruct H1 as [n Hn].
  unfold apply_ring_mod, len in H. rewrite Hn in H. cbn [bind] in H.
  destruct (sr st =? 0)%Z; [discriminate H |].
  rewrite (np_mul_same_1d _ _ n Hn) in H
    by (unfold np_sin, np_scale; cbn [shape]; apply linspace_shape).
  cbn [bind] in H. injection H as <-. reflexivity.
Qed.

Lemma bandpass_filter_shape (a out : ndarray) (lowcut highcut : R) (fs : Z) (order : nat) :
  bandpass_filter L a lowcut highcut fs order = Ok out -> shape out = shape a.
Proof.
  unfold bandpass_filter. intros H.
  destruct (Req_dec_T (0.5 * IZR fs) 0); [discriminate H |].
  apply bind_Ok in H. destruct H as ([b a'] & _ & H).
  apply (lfilter_shape _ _ _ _ H).
Qed.

Lemma apply_bandpass_mono : keeps_mono (apply_bandpass L c).
Proof.
  intros st st' H1 H. unfold apply_bandpass in H. invert_bind H.
  subst st'. cbn [set_current y_current]. unfold ndim in *.
  rewrite (bandpass_filter_shape _ _ _ _ _ _ Ha). exact H1.
Qed.

(** The round trip of the two plugin cells: one channel in, one channel out. *)
Lemma through_board (ps : list plugin) (a a' : ndarray) (rate : Z) :
  ndim a = 1%nat ->
  bind (board L ps (expand_dims0 a) rate) squeeze0 = Ok a' ->
  ndim a' = 1%nat.
Proof.
  intros H1 H. apply ndim_one in H1. destruct H1 as [n Hn].
  apply bind_Ok in H. destruct H as (processed & Hb & Hs).
  assert (Hx : shape (expand_dims0 a) = [1%nat; n])
    by (unfold expand_dims0; cbn [shape]; rewrite Hn; reflexivity).
  destruct (board_channels _ _ _ _ _ _ Hx Hb) as [m Hm].
  rewrite (squeeze0_one_channel _ _ Hm) in Hs. injection Hs as <-. reflexivity.
Qed.

Lemma apply_flanger_mono : keeps_mono (apply_flanger L c).
Proof.
  intros st st' H1 H. unfold apply_flanger in H.
  rewrite <- bind_assoc in H. apply bind_Ok in H. destruct H as (a' & Ha & H).
  injection H as <-. exact (through_board _ _ _ _ H1 Ha).
Qed.

Lemma apply_phaser_mono : keeps_mono (apply_phaser L c).
Proof.
  intros st st' H1 H. unfold apply_phaser in H.
  rewrite <- bind_assoc in H. apply bind_Ok in H. destruct H as (a' & Ha & H).
  injection H as <-. exact (through_board _ _ _ _ H1 Ha).
Qed.

Lemma toggled_mono (b : bool) (e : state -> result state) :
  keeps_mono e -> keeps_mono (fun st => if b then e st else Ok st).
Proof.
  intros He st st' H1 H. destruct b.
  - exact (He _ _ H1 H).
  - injection H as <-. exact H1.
Qed.

Lemma effect_cells_mono : keeps_mono (effect_cells L c).
Proof.
  intros st st' H0 H. unfold effect_cells in H.
  apply bind_Ok in H. destruct H as (s1 & H1 & H).
  apply bind_Ok in H. destruct H as (s2 & H2 & H).
  apply bind_Ok in H. destruct H as (s3 & H3 & H).
  apply bind_Ok in H. destruct H as (s4 & H4 & H5).
  apply (toggled_mono _ _ apply_pitch_shift_mono _ _ H0) in H1.
  apply (toggled_mono _ _ apply_ring_mod_mono _ _ H1) in H2.
  apply (toggled_mono _ _ apply_bandpass_mono _ _ H2) in H3.
  apply (toggled_mono _ _ apply_flanger_mono _ _ H3) in H4.
  exact (toggled_mono _ _ apply_phaser_mono _ _ H4 H5).
Qed.

Hypothesis libs_return : effects_return L.

Lemma apply_pitch_shift_goes : goes_through (apply_pitch_shift L c).
Proof.
  intros st _ _. unfold apply_pitch_shift.
  destruct libs_return as (Hp & _).
  destruct (Hp (y_current st) (sr st) (PITCH_SHIFT_STEPS c) 12%Z "kaiser_best"%string)
    as [out Hout].
  rewrite Hout. eexists. reflexivity.
Qed.

Lemma apply_ring_mod_goes : goes_through (apply_ring_mod c).
Proof.
  intros st H1 Hsr. apply ndim_one in H1. destruct H1 as [n Hn].
  unfold apply_ring_mod, len. rewrite Hn. cbn [bind].
  destruct (Z.eqb_spec (sr st) 0) as [E|_]; [contradiction |].
  rewrite (np_mul_same_1d _ _ n Hn)
    by (unfold np_sin, np_scale; cbn [shape]; apply linspace_shape).
  eexists. reflexivity.
Qed.

Lemma bandpass_filter_goes (a : ndarray) (lowcut highcut : R) (fs : Z) (order : nat) :
  fs <> 0%Z -> exists out, bandpass_filter L a lowcut highcut fs order = Ok out.
Proof.
  intros Hfs. unfold bandpass_filter.
  destruct (Req_dec_T (0.5 * IZR fs) 0) as [E|_].
  - exfalso. apply Hfs. apply eq_IZR. lra.
  - destruct libs_return as (_ & Hb & Hl & _).
    destruct (Hb order [lowcut / (0.5 * IZR fs); highcut / (0.5 * IZR fs)] "band"%string)
      as [[b a'] Hba].
    rewrite Hba. cbn [bind]. apply Hl.
Qed.

Lemma apply_bandpass_goes : goes_through (apply_bandpass L c).
Proof.
  intros st _ Hsr. unfold apply_bandpass.
  destruct (bandpass_filter_goes (y_current st) (BANDPASS_LOW c) (BANDPASS_HIGH c)
              (sr st) default_order Hsr) as [out Hout].
  rewrite Hout. eexists. reflexivity.
Qed.

Lemma through_board_goes (ps : list plugin) (a : ndarray) (rate : Z) :
  ndim a = 1%nat ->
  exists a', bind (board L ps (expand_dims0 a) rate) squeeze0 = Ok a'.
Proof.
  intros H1. apply ndim_one in H1. destruct H1 as [n Hn].
  destruct libs_return as (_ & _ & _ & Hb).
  destruct (Hb ps (expand_dims0 a) rate) as [processed Hp].
  assert (Hx : shape (expand_dims0 a) = [1%nat; n])
    by (unfold expand_dims0; cbn [shape]; rewrite Hn; reflexivity).
  destruct (board_channels _ _ _ _ _ _ Hx Hp) as [m Hm].
  rewrite Hp. cbn [bind]. rewrite (squeeze0_one_channel _ _ Hm).
  eexists. reflexivity.
Qed.

Lemma apply_flanger_goes : goes_through (apply_flanger L c).
Proof.
  intros st H1 _. unfold apply_flanger. rewrite <- bind_assoc.
  destruct (through_board_goes
              [Chorus (FLANGER_RATE c) (FLANGER_DEPTH c) (FLANGER_CENTRE_DELAY_MS c)
                      (FLANGER_FEEDBACK c) (FLANGER_MIX c)]
              (y_current st) (sr st) H1) as [a' Ha].
  rewrite Ha. eexists. reflexivity.
Qed.

Lemma apply_phaser_goes : goes_through (apply_phaser L c).
Proof.
  intros st H1 _. unfold apply_phaser. rewrite <- bind_assoc.
  destruct (through_board_goes
              [Phaser (PHASER_RATE c) (PHASER_DEPTH c) (PHASER_MIX c)]
              (y_current st) (sr st) H1) as [a' Ha].
  rewrite Ha. eexists. reflexivity.
Qed.

(** One more cell after a state that is still mono at its rate. *)
Lemma toggled_step (b : bool) (e : state -> result state) (st : state) :
  keeps_names e -> keeps_mono e -> goes_through e ->
  ndim (y_current st) = 1%nat -> sr st <> 0%Z ->
  exists st', (if b then e st else Ok st) = Ok st'
              /\ ndim (y_current st') = 1%nat /\ sr st' = sr st.
Proof.
  intros Hn Hm Hg H1 Hsr. destruct b.
  - destruct (Hg st H1 Hsr) as [st' H]. exists st'.
    split; [exact H | split; [exact (Hm _ _ H1 H) | exact (proj2 (Hn _ _ H))]].
  - exists st. split; [reflexivity | split; [exact H1 | reflexivity]].
Qed.

Lemma effect_cells_goes : goes_through (effect_cells L c).
Proof.
  intros st H0 Hsr. unfold effect_cells.
  destruct (toggled_step (DO_PITCH_SHIFT c) _ st apply_pitch_shift_names
              apply_pitch_shift_mono apply_pitch_shift_goes H0 Hsr) as (s1 & E1 & M1 & R1).
  unfold cell_pitch_shift. rewrite E1. cbn [bind]. rewrite <- R1 in Hsr.
  destruct (toggled_step (DO_RING_MOD c) _ s1 apply_ring_mod_names
              apply_ring_mod_mono apply_ring_mod_goes M1 Hsr) as (s2 & E2 & M2 & R2).
  unfold cell_ring_mod. rewrite E2. cbn [bind]. rewrite <- R2 in Hsr.
  destruct (toggled_step (DO_BANDPASS c) _ s2 apply_bandpass_names
              apply_bandpass_mono apply_bandpass_goes M2 Hsr) as (s3 & E3 & M3 & R3).
  unfold cell_bandpass. rewrite E3. cbn [bind]. rewrite <- R3 in Hsr.
  destruct (toggled_step (DO_FLANGER c) _ s3 apply_flanger_names
              apply_flanger_mono apply_flanger_goes M3 Hsr) as (s4 & E4 & M4 & R4).
  unfold cell_flanger. rewrite E4. cbn [bind]. rewrite <- R4 in Hsr.
  destruct (toggled_step (DO_PHASER c) _ s4 apply_phaser_names
              apply_phaser_mono apply_phaser_goes M4 Hsr) as (s5 & E5 & _).
  unfold cell_phaser. exists s5. exact E5.
Qed.

(** Writing a one-dimensional array gives a one-channel file at the rate
    of the state. *)
Lemma cell_write_mono (st : state) :
  ndim (y_current st) = 1%nat ->
  cell_write c st
  = Ok (mkFile (OUTPUT_FILE c) (sr st) 1 (map pcm_16 (data (y_current st)))).
Proof.
  intros H1. apply ndim_one in H1. destruct H1 as [n Hn].
  unfold cell_write, sf_write. rewrite Hn. reflexivity.
Qed.

End Cells.

(** *** The cells against the chain of the specification *)

Lemma bind_ext_Ok {A B : Type} (m : result A) (k k' : A -> result B) :
  (forall a, m = Ok a -> k a = k' a) -> bind m k = bind m k'.
Proof. intros H. destruct m; simpl; [apply H; reflexivity | reflexivity]. Qed.

Section Refinement.

Variable L : AudioLibs.
Variable c : config.

Lemma spec_fold_raise (rate : Z) (es : list effect) (x : exn) :
  fold_left (spec_apply L c rate) es (Raise x) = Raise x.
Proof. induction es as [|e es IH]; cbn [fold_left]; [reflexivity | exact IH]. Qed.

Lemma spec_fold_bind (rate : Z) (es : list effect) (m : result ndarray) :
  fold_left (spec_apply L c rate) es m
  = (w <- m ;; fold_left (spec_apply L c rate) es (Ok w)).
Proof.
  destruct m as [w|x]; cbn [bind]; [reflexivity | apply spec_fold_raise].
Qed.

(** One effect of the order is one step of the chain: applied when its
    toggle is on, passed over when it is off. *)
Lemma spec_chain_step (rate : Z) (e : effect) (rest : list effect) (w : ndarray) :
  fold_left (spec_apply L c rate) (filter (spec_toggle c) (e :: rest)) (Ok w)
  = (w' <- (if spec_toggle c e then spec_effect L c rate e w else Ok w) ;;
     fold_left (spec_apply L c rate) (filter (spec_toggle c) rest) (Ok w')).
Proof.
  cbn [filter]. destruct (spec_toggle c e); cbn [fold_left bind]; [| reflexivity].
  rewrite spec_fold_bind. reflexivity.
Qed.

(** The ring-modulation body on any array of one dimension. *)
Lemma apply_ring_mod_spec (st : state) :
  ndim (y_current st) = 1%nat -> sr st <> 0%Z ->
  apply_ring_mod c st
  = Ok (set_current st (spec_ring_modulation (RING_MOD_FREQ c) (sr st) (y_current st))).
Proof.
  intros H1 Hsr. apply ndim_one in H1. destruct H1 as [n Hn].
  unfold apply_ring_mod, len. rewrite Hn. cbn [bind].
  destruct (Z.eqb_spec (sr st) 0) as [E|_]; [contradiction |].
  rewrite (np_mul_same_1d _ _ n Hn)
    by (unfold np_sin, np_scale; cbn [shape]; apply linspace_shape).
  cbn [bind]. unfold spec_ring_modulation, size. rewrite Hn.
  cbn [fold_right]. rewrite Nat.mul_1_r.
  f_equal. f_equal. f_equal.
  apply map_ext_in. intros k Hk. apply in_seq in Hk.
  rewrite carrier_nth by (try assumption; lia). reflexivity.
Qed.

Lemma apply_bandpass_spec (st : state) :
  sr st <> 0%Z ->
  apply_bandpass L c st
  = (w <- spec_bandpass L (BANDPASS_LOW c) (BANDPASS_HIGH c) (sr st) (y_current st) ;;
     Ok (set_current st w)).
Proof.
  intros Hsr.
  assert (Hr : IZR (sr st) <> 0) by (intros E; apply Hsr; apply eq_IZR; exact E).
  unfold apply_bandpass, bandpass_filter, spec_bandpass, default_order.
  destruct (Req_dec_T (0.5 * IZR (sr st)) 0) as [E|_]; [exfalso; lra |].
  replace (0.5 * IZR (sr st)) with (IZR (sr st) / 2) by lra.
  reflexivity.
Qed.

Hypothesis pitch_ndim : pitch_shift_keeps_ndim L.
Hypothesis lfilter_shape : lfilter_keeps_shape L.
Hypothesis board_channels : board_keeps_channels L.

(** Expanding, running the board and squeezing is the plugin on the only
    channel. *)
Lemma through_board_spec (p : plugin) (a : ndarray) (rate : Z) :
  ndim a = 1%nat ->
  bind (board L [p] (expand_dims0 a) rate) squeeze0 = spec_plugin L p rate a.
Proof.
  intros H1. apply ndim_one in H1. destruct H1 as [n Hn].
  unfold spec_plugin. change (mkArr (1%nat :: shape a) (data a)) with (expand_dims0 a).
  apply bind_ext_Ok. intros processed Hb.
  assert (Hx : shape (expand_dims0 a) = [1%nat; n])
    by (unfold expand_dims0; cbn [shape]; rewrite Hn; reflexivity).
  destruct (board_channels _ _ _ _ _ _ Hx Hb) as [m Hm].
  rewrite (squeeze0_one_channel _ _ Hm). unfold only_channel. rewrite Hm. reflexivity.
Qed.

(** Each body is its effect of the specification on [y_current], the result
    bound to [y_current] again. *)
Lemma body_refines (e : effect) (st : state) :
  ndim (y_current st) = 1%nat -> sr st <> 0%Z ->
  match e with
  | PitchShift => apply_pitch_shift L c st
  | RingModulation => apply_ring_mod c st
  | BandpassFilter => apply_bandpass L c st
  | Flanger => apply_flanger L c st
  | PhaserSweep => apply_phaser L c st
  end
  = (w <- spec_effect L c (sr st) e (y_current st) ;; Ok (set_current st w)).
Proof.
  intros H1 Hsr. destruct e; cbn [spec_effect].
  - reflexivity.
  - rewrite (apply_ring_mod_spec st H1 Hsr). reflexivity.
  - apply apply_bandpass_spec. exact Hsr.
  - unfold apply_flanger. rewrite <- bind_assoc.
    rewrite (through_board_spec _ _ _ H1). reflexivity.
  - unfold apply_phaser. rewrite <- bind_assoc.
    rewrite (through_board_spec _ _ _ H1). reflexivity.
Qed.

(** An effect of the specification hands on one dimension. *)
Lemma spec_effect_mono (rate : Z) (e : effect) (w w' : ndarray) :
  ndim w = 1%nat -> spec_effect L c rate e w = Ok w' -> ndim w' = 1%nat.
Proof.
  intros H1 H. destruct e; cbn [spec_effect] in H.
  - rewrite (pitch_ndim _ _ _ _ _ _ H). exact H1.
  - injection H as <-. exact H1.
  - unfold spec_bandpass in H. apply bind_Ok in H. destruct H as ([b a] & _ & H).
    unfold ndim. rewrite (lfilter_shape _ _ _ _ H). exact H1.
  - unfold spec_plugin in H. apply bind_Ok in H. destruct H as (processed & _ & H).
    unfold only_channel in H.
    destruct (shape processed) as [|[|[|k]] [|m [|j s]]]; try discriminate H.
    injection H as <-. reflexivity.
  - unfold spec_plugin in H. apply bind_Ok in H. destruct H as (processed & _ & H).
    unfold only_channel in H.
    destruct (shape processed) as [|[|[|k]] [|m [|j s]]]; try discriminate H.
    injection H as <-. reflexivity.
Qed.

(** One [if] statement of the notebook, followed by the cells below it,
    against the chain from that effect on. *)
Lemma cell_refines (b : bool) (body : state -> result state) (e : effect)
      (rest : list effect) (below : state -> result state) (st : state) :
  ndim (y_current st) = 1%nat ->
  spec_toggle c e = b ->
  body st = (w <- spec_effect L c (sr st) e (y_current st) ;; Ok (set_current st w)) ->
  (forall w, ndim w = 1%nat ->
     below (set_current st w)
     = (w' <- fold_left (spec_apply L c (sr st)) (filter (spec_toggle c) rest) (Ok w) ;;
        Ok (set_current st w'))) ->
  bind (if b then body st else Ok st) below
  = (w' <- fold_left (spec_apply L c (sr st)) (filter (spec_toggle c) (e :: rest))
             (Ok (y_current st)) ;;
     Ok (set_current st w')).
Proof.
  intros H1 Hb Hbody Hbelow.
  rewrite spec_chain_step, Hb, bind_assoc.
  destruct b.
  - rewrite Hbody, bind_assoc.
    apply bind_ext_Ok. intros w Hw. cbn [bind].
    apply Hbelow. exact (spec_effect_mono _ _ _ _ H1 Hw).
  - cbn [bind]. rewrite <- (Hbelow (y_current st) H1).
    destruct st. reflexivity.
Qed.

End Refinement.

(** *** The marking library meets what the theorems ask *)

Lemma marking_pitch (wave : list R) (rate : Z) :
  pitch_shift_keeps_ndim (marking_library wave rate).
Proof. intros a r n b res out H. cbn in H. injection H as <-. reflexivity. Qed.

Lemma marking_lfilter_shape (wave : list R) (rate : Z) :
  lfilter_keeps_shape (marking_library wave rate).
Proof.
  intros b a x out H. cbn in H. unfold stand_in_lfilter in H. injection H as <-. reflexivity.
Qed.

Lemma marking_board_channels (wave : list R) (rate : Z) :
  board_keeps_channels (marking_library wave rate).
Proof.
  intros ps ch n r x out Hx H. cbn [board marking_library] in H. unfold marking_board in H.
  destruct ps as [|[? ? ? ? ?|? ? ?] [|? ?]]; try discriminate H;
    injection H as <-; exists n; exact Hx.
Qed.

(** C2.  On a mono waveform at a non-zero sample rate, with libraries that
    return arrays of the documented ranks, running the five effect cells is
    running the chain of the specification: the effects whose toggle is
    True, and only those, in the order pitch shift, ring modulation,
    bandpass filter, flanger (one Chorus plugin with the five flanger
    constants), phaser, each on the waveform the one before left; the result
    is bound to [y_current], and [y] and [sr] stay.  A cell whose toggle is
    False hands the state on as it got it. *)
Theorem enabled_effects_in_order (L : AudioLibs) (c : config) (st : state) :
  pitch_shift_keeps_ndim L -> lfilter_keeps_shape L -> board_keeps_channels L ->
  ndim (y_current st) = 1%nat -> sr st <> 0%Z ->
  effect_cells L c st
  = (w <- spec_chain L c (sr st) (y_current st) ;; Ok (mkState (y st) (sr st) w))
  /\ (DO_PITCH_SHIFT c = false -> cell_pitch_shift L c st = Ok st)
  /\ (DO_RING_MOD c = false -> cell_ring_mod c st = Ok st)
  /\ (DO_BANDPASS c = false -> cell_bandpass L c st = Ok st)
  /\ (DO_FLANGER c = false -> cell_flanger L c st = Ok st)
  /\ (DO_PHASER c = false -> cell_phaser L c st = Ok st).
Proof.
  intros Hp Hl Hb H1 Hsr.
  pose proof (cell_refines L c Hp Hl) as Hcell.
  pose proof (body_refines L c Hb) as Hbody.
  split.
  - unfold effect_cells, spec_chain, spec_order.
    unfold cell_pitch_shift, cell_ring_mod, cell_bandpass, cell_flanger, cell_phaser.
    apply (Hcell (DO_PITCH_SHIFT c) (apply_pitch_shift L c) PitchShift _ _ st H1 eq_refl
             (Hbody PitchShift st H1 Hsr)).
    intros w1 M1.
    apply (Hcell (DO_RING_MOD c) (apply_ring_mod c) RingModulation _ _
             (set_current st w1) M1 eq_refl
             (Hbody RingModulation (set_current st w1) M1 Hsr)).
    intros w2 M2.
    apply (Hcell (DO_BANDPASS c) (apply_bandpass L c) BandpassFilter _ _
             (set_current st w2) M2 eq_refl
             (Hbody BandpassFilter (set_current st w2) M2 Hsr)).
    intros w3 M3.
    apply (Hcell (DO_FLANGER c) (apply_flanger L c) Flanger _ _
             (set_current st w3) M3 eq_refl
             (Hbody Flanger (set_current st w3) M3 Hsr)).
    intros w4 M4. cbv beta.
    rewrite <- (bind_ret_r (if DO_PHASER c then _ else _)).
    apply (Hcell (DO_PHASER c) (apply_phaser L c) PhaserSweep [] (fun s => Ok s)
             (set_current st w4) M4 eq_refl
             (Hbody PhaserSweep (set_current st w4) M4 Hsr)).
    intros w5 _. reflexivity.
  - unfold cell_pitch_shift, cell_ring_mod, cell_bandpass, cell_flanger, cell_phaser.
    repeat split; intros H; rewrite H; reflexivity.
Qed.

(** The 400 Hz carrier at the first two sample times of a 16000 Hz signal. *)
Lemma carrier_start : sin (2 * PI * 400 * (INR 0 / IZR 16000)) = 0.
Proof.
  replace (2 * PI * 400 * (INR 0 / IZR 16000)) with 0 by (cbn [INR]; field).
  apply sin_0.
Qed.

Lemma carrier_next : sin (2 * PI * 400 * (INR 1 / IZR 16000)) = sin (PI / 20).
Proof. f_equal. cbn [INR]. field. Qed.

Lemma enabled_effects_in_order_witness :
  let L := marking_library probe_wave 16000 in
  let c := with_toggles notebook_config true true true true true in
  ndim (y_current probe_state) = 1%nat
  /\ sr probe_state <> 0%Z
  /\ effect_cells L c probe_state
     = Ok (mkState (array1 probe_wave) 16000 (array1 [10; 10 + 4 * sin (PI / 20)])).
Proof.
  cbv zeta. split; [reflexivity | split; [discriminate |]].
  destruct (enabled_effects_in_order (marking_library probe_wave 16000)
              (with_toggles notebook_config true true true true true) probe_state
              (marking_pitch probe_wave 16000) (marking_lfilter_shape probe_wave 16000)
              (marking_board_channels probe_wave 16000) eq_refl ltac:(discriminate))
    as (Hchain & _).
  rewrite Hchain.
  cbv [spec_chain spec_order filter spec_toggle with_toggles notebook_config
       DO_PITCH_SHIFT DO_RING_MOD DO_BANDPASS DO_FLANGER DO_PHASER
       PITCH_SHIFT_STEPS RING_MOD_FREQ BANDPASS_LOW BANDPASS_HIGH
       FLANGER_RATE FLANGER_DEPTH FLANGER_CENTRE_DELAY_MS FLANGER_FEEDBACK FLANGER_MIX
       PHASER_RATE PHASER_DEPTH PHASER_MIX
       fold_left spec_apply bind spec_effect spec_bandpass spec_plugin only_channel
       spec_ring_modulation size fold_right Nat.mul Nat.add
       marking_library marking_board pitch_shift butter lfilter board stand_in_lfilter
       direct_form dot combine map seq nth fst snd hd tl length
       probe_state probe_wave array1 shape data y sr y_current].
  rewrite carrier_next, carrier_start.
  f_equal. f_equal. f_equal.
  f_equal; [lra |]. f_equal. lra.
Defined.

(** *** The stand-in library meets what the theorems ask *)

Lemma stand_in_pitch (wave : list R) (rate : Z) : pitch_shift_keeps_ndim (stand_in wave rate).
Proof. intros a r n b res out H. cbn in H. injection H as <-. reflexivity. Qed.

Lemma stand_in_lfilter_shape (wave : list R) (rate : Z) : lfilter_keeps_shape (stand_in wave rate).
Proof. intros b a x out H. cbn in H. unfold stand_in_lfilter in H. injection H as <-. reflexivity. Qed.

Lemma stand_in_board (wave : list R) (rate : Z) : board_keeps_channels (stand_in wave rate).
Proof.
  intros ps ch n r x out Hx H. cbn in H. injection H as <-.
  exists n. exact Hx.
Qed.

Lemma stand_in_returns (wave : list R) (rate : Z) : effects_return (stand_in wave rate).
Proof.
  repeat split; intros; cbn; eexists; reflexivity.
Qed.

Lemma stand_in_load (wave : list R) (rate : Z) :
  librosa_load (stand_in wave rate) INPUT_FILE = Ok (array1 wave, rate).
Proof. reflexivity. Qed.

(** *** Sample rate *)

Lemma sf_write_fields (file : string) (a : ndarray) (rate : Z) (f : sound_file) :
  sf_write file a rate = Ok f ->
  file_path f = file /\ samplerate f = rate /\ samples f = map pcm_16 (data a).
Proof.
  unfold sf_write. intros H.
  destruct (shape a) as [|n [|ch [|k s]]]; try discriminate H;
    injection H as <-; repeat split.
Qed.

(** C3.  Let the input file decode to [(y0, sr0)].  None of the five effect
    cells changes [sr] (nor [y]); every file the notebook writes carries the
    sample rate [sr0]; and the notebook does write one, at [sr0], whenever the
    input is one-dimensional, [sr0] is not zero and the library calls return
    with the ranks they are documented to return. *)
Theorem sample_rate_end_to_end (L : AudioLibs) (c : config) (y0 : ndarray) (sr0 : Z) :
  librosa_load L INPUT_FILE = Ok (y0, sr0) ->
  Forall keeps_names
    [cell_pitch_shift L c; cell_ring_mod c; cell_bandpass L c; cell_flanger L c;
     cell_phaser L c]
  /\ keeps_names (effect_cells L c)
  /\ (forall f, notebook L c = Ok f -> samplerate f = sr0)
  /\ (pitch_shift_keeps_ndim L -> lfilter_keeps_shape L -> board_keeps_channels L ->
      effects_return L -> ndim y0 = 1%nat -> sr0 <> 0%Z ->
      exists f, notebook L c = Ok f /\ samplerate f = sr0).
Proof.
  intros Hload.
  assert (Hwritten : forall f, notebook L c = Ok f -> samplerate f = sr0).
  { intros f H. unfold notebook, cell_load in H. rewrite Hload in H. cbn [bind] in H.
    apply bind_Ok in H. destruct H as (st' & He & Hw).
    apply effect_cells_names in He. destruct He as [_ Hsr]. cbn [sr] in Hsr.
    apply sf_write_fields in Hw. destruct Hw as (_ & Hrate & _).
    rewrite Hrate. exact Hsr. }
  split; [| split; [| split]].
  - repeat apply Forall_cons; [ | | | | | apply Forall_nil ].
    + exact (toggled_names (DO_PITCH_SHIFT c) _ (apply_pitch_shift_names L c)).
    + exact (toggled_names (DO_RING_MOD c) _ (apply_ring_mod_names c)).
    + exact (toggled_names (DO_BANDPASS c) _ (apply_bandpass_names L c)).
    + exact (toggled_names (DO_FLANGER c) _ (apply_flanger_names L c)).
    + exact (toggled_names (DO_PHASER c) _ (apply_phaser_names L c)).
  - apply effect_cells_names.
  - exact Hwritten.
  - intros Hp Hl Hb Hr H1 Hsr.
    destruct (effect_cells_goes L c Hp Hl Hb Hr (mkState y0 sr0 y0) H1 Hsr) as [st' He].
    pose proof (effect_cells_mono L c Hp Hl Hb (mkState y0 sr0 y0) st' H1 He) as Hm.
    assert (Hn : notebook L c
                 = Ok (mkFile (OUTPUT_FILE c) (sr st') 1
                              (map pcm_16 (data (y_current st'))))).
    { unfold notebook, cell_load. rewrite Hload. cbn [bind]. rewrite He. cbn [bind].
      apply cell_write_mono. exact Hm. }
    eexists. split; [exact Hn |]. exact (Hwritten _ Hn).
Qed.

Lemma sample_rate_end_to_end_witness :
  let L := stand_in sample_wave 2 in
  librosa_load L INPUT_FILE = Ok (array1 sample_wave, 2%Z)
  /\ exists f, notebook L notebook_config = Ok f /\ samplerate f = 2%Z.
Proof.
  cbv zeta. split; [reflexivity |].
  destruct (sample_rate_end_to_end (stand_in sample_wave 2) notebook_config
              (array1 sample_wave) 2 (stand_in_load sample_wave 2))
    as (_ & _ & _ & Hgoes).
  apply Hgoes.
  - apply stand_in_pitch.
  - apply stand_in_lfilter_shape.
  - apply stand_in_board.
  - apply stand_in_returns.
  - reflexivity.
  - discriminate.
Defined.

(** *** Channel count *)

(** C4.  When the libraries return arrays of the documented ranks (pitch
    shift and lfilter keep the rank, a board keeps the channel count), each
    of the five cells hands on a one-dimensional array when given one: the
    first three work on it directly, the two plugin cells expand it to shape
    (1, n) and squeeze the board's output back.  So from a one-dimensional
    [y_current] every finished run of the effect cells ends one-dimensional
    and is written as a one-channel file; and the run does finish when the
    library calls return and the rate is not zero. *)
Theorem mono_in_mono_out (L : AudioLibs) (c : config) (st : state) :
  pitch_shift_keeps_ndim L -> lfilter_keeps_shape L -> board_keeps_channels L ->
  ndim (y_current st) = 1%nat ->
  Forall keeps_mono
    [cell_pitch_shift L c; cell_ring_mod c; cell_bandpass L c; cell_flanger L c;
     cell_phaser L c]
  /\ (exists n, shape (expand_dims0 (y_current st)) = [1%nat; n])
  /\ (forall st', effect_cells L c st = Ok st' ->
        ndim (y_current st') = 1%nat
        /\ exists f, cell_write c st' = Ok f /\ channels f = 1%nat)
  /\ (effects_return L -> sr st <> 0%Z ->
        exists st' f, effect_cells L c st = Ok st' /\ cell_write c st' = Ok f
                      /\ ndim (y_current st') = 1%nat /\ channels f = 1%nat).
Proof.
  intros Hp Hl Hb H1.
  split; [| split; [| split]].
  - repeat apply Forall_cons; [ | | | | | apply Forall_nil ].
    + exact (toggled_mono (DO_PITCH_SHIFT c) _ (apply_pitch_shift_mono L c Hp)).
    + exact (toggled_mono (DO_RING_MOD c) _ (apply_ring_mod_mono c)).
    + exact (toggled_mono (DO_BANDPASS c) _ (apply_bandpass_mono L c Hl)).
    + exact (toggled_mono (DO_FLANGER c) _ (apply_flanger_mono L c Hb)).
    + exact (toggled_mono (DO_PHASER c) _ (apply_phaser_mono L c Hb)).
  - apply ndim_one in H1. destruct H1 as [n Hn]. exists n.
    unfold expand_dims0. cbn [shape]. rewrite Hn. reflexivity.
  - intros st' He.
    pose proof (effect_cells_mono L c Hp Hl Hb _ _ H1 He) as Hm.
    split; [exact Hm |].
    eexists. split; [apply cell_write_mono; exact Hm | reflexivity].
  - intros Hr Hsr.
    destruct (effect_cells_goes L c Hp Hl Hb Hr st H1 Hsr) as [st' He].
    pose proof (effect_cells_mono L c Hp Hl Hb _ _ H1 He) as Hm.
    exists st'. eexists.
    split; [exact He |].
    split; [apply cell_write_mono; exact Hm |].
    split; [exact Hm | reflexivity].
Qed.

Lemma mono_in_mono_out_witness :
  let L := stand_in sample_wave 2 in
  let c := with_toggles notebook_config true true true true true in
  ndim (y_current sample_state) = 1%nat
  /\ exists st' f, effect_cells L c sample_state = Ok st' /\ cell_write c st' = Ok f
                   /\ ndim (y_current st') = 1%nat /\ channels f = 1%nat.
Proof.
  cbv zeta. split; [reflexivity |].
  destruct (mono_in_mono_out (stand_in sample_wave 2)
              (with_toggles notebook_config true true true true true) sample_state
              (stand_in_pitch sample_wave 2) (stand_in_lfilter_shape sample_wave 2)
              (stand_in_board sample_wave 2) eq_refl)
    as (_ & _ & _ & Hgoes).
  apply Hgoes.
  - apply stand_in_returns.
  - discriminate.
Defined.

(** *** All flags off, and what reaches the file *)

Lemma Int_part_IZR (k : Z) : Int_part (IZR k) = k.
Proof.
  destruct (base_Int_part (IZR k)) as [Hle Hgt].
  assert (H1 : (Int_part (IZR k) <= k)%Z) by (apply le_IZR; exact Hle).
  assert (H2 : (k - 1 < Int_part (IZR k))%Z)
    by (apply lt_IZR; rewrite minus_IZR; lra).
  lia.
Qed.

Lemma lrint_IZR (k : Z) : lrint (IZR k) = k.
Proof.
  unfold lrint. rewrite Int_part_IZR.
  destruct (Rlt_dec (IZR k - IZR k) (1 / 2)) as [_|N]; [reflexivity | exfalso; lra].
Qed.

(** Rounding moves a value by half a step at most. *)
Lemma lrint_error (x : R) : Rabs (IZR (lrint x) - x) <= 1 / 2.
Proof.
  destruct (base_Int_part x) as [Hle Hgt]. unfold lrint.
  destruct (Rlt_dec (x - IZR (Int_part x)) (1 / 2)) as [Hd|Hd].
  - apply Rabs_le. lra.
  - destruct (Rlt_dec (1 / 2) (x - IZR (Int_part x))) as [Hu|Hu].
    + rewrite plus_IZR. apply Rabs_le. lra.
    + destruct (Z.even (Int_part x)).
      * apply Rabs_le. lra.
      * rewrite plus_IZR. apply Rabs_le. lra.
Qed.

Lemma lrint_range (x : R) (lo hi : Z) :
  IZR lo < x -> x < IZR hi -> (lo <= lrint x <= hi)%Z.
Proof.
  intros Hlo Hhi. destruct (base_Int_part x) as [Hle Hgt].
  assert (H1 : (Int_part x < hi)%Z) by (apply lt_IZR; lra).
  assert (H2 : (lo - 1 < Int_part x)%Z) by (apply lt_IZR; rewrite minus_IZR; lra).
  unfold lrint.
  destruct (Rlt_dec (x - IZR (Int_part x)) (1 / 2)); [lia |].
  destruct (Rlt_dec (1 / 2) (x - IZR (Int_part x))); [lia |].
  destruct (Z.even (Int_part x)); lia.
Qed.

(** Every code is a 16-bit one. *)
Lemma pcm_16_range (x : R) : (-32768 <= pcm_16 x <= 32767)%Z.
Proof.
  unfold pcm_16.
  destruct (Rle_dec 32767 (x * 32768)) as [_|Hhi]; [lia |].
  destruct (Rle_dec (x * 32768) (-32768)) as [_|Hlo]; [lia |].
  apply lrint_range; lra.
Qed.

(** A sample that is a 16-bit code over 0x8000 gets that code. *)
Lemma pcm_16_grid (k : Z) :
  (-32768 <= k <= 32767)%Z -> pcm_16 (IZR k / 32768) = k.
Proof.
  intros Hk. unfold pcm_16.
  replace (IZR k / 32768 * 32768) with (IZR k) by field.
  destruct (Rle_dec 32767 (IZR k)) as [Hhi|_].
  - apply le_IZR in Hhi. lia.
  - destruct (Rle_dec (IZR k) (-32768)) as [Hlo|_].
    + apply le_IZR in Hlo. lia.
    + apply lrint_IZR.
Qed.

(** Read back, a sample is the one written exactly when it lies on the
    16-bit grid. *)
Lemma pcm_16_exact (x : R) :
  pcm_16_to_float (pcm_16 x) = x
  <-> exists k, (-32768 <= k <= 32767)%Z /\ x = IZR k / 32768.
Proof.
  split.
  - intros H. exists (pcm_16 x). split; [apply pcm_16_range |].
    symmetry. exact H.
  - intros (k & Hk & ->). rewrite (pcm_16_grid k Hk). reflexivity.
Qed.

(** Within full scale the code is off by one step at most. *)
Lemma pcm_16_error (x : R) :
  -1 <= x <= 1 -> Rabs (pcm_16_to_float (pcm_16 x) - x) <= 1 / 32768.
Proof.
  intros [Hlo Hhi]. unfold pcm_16_to_float, pcm_16.
  destruct (Rle_dec 32767 (x * 32768)) as [Hc|Hc].
  - apply Rabs_le. lra.
  - destruct (Rle_dec (x * 32768) (-32768)) as [Hd|Hd].
    + apply Rabs_le. lra.
    + pose proof (lrint_error (x * 32768)) as He.
      pose proof (Rle_abs (IZR (lrint (x * 32768)) - x * 32768)) as Hup.
      pose proof (Rle_abs (- (IZR (lrint (x * 32768)) - x * 32768))) as Hdown.
      rewrite Rabs_Ropp in Hdown.
      apply Rabs_le. lra.
Qed.

Lemma pcm_16_full_scale : pcm_16 1 = 32767%Z /\ pcm_16 (-1) = (-32768)%Z.
Proof.
  unfold pcm_16. split.
  - destruct (Rle_dec 32767 (1 * 32768)) as [_|N]; [reflexivity | exfalso; lra].
  - destruct (Rle_dec 32767 (-1 * 32768)) as [Y|_]; [exfalso; lra |].
    destruct (Rle_dec (-1 * 32768) (-32768)) as [_|N]; [reflexivity | exfalso; lra].
Qed.

(** C10 as stated does not hold: with the five flags False a waveform at
    full scale, [1; -1] decoded at 44100 Hz, is not on the file sample for
    sample.  The file holds the codes 32767 and -32768, and 32767 reads back
    as 32767/32768, not as 1. *)
Lemma full_scale_is_clipped :
  let L := stand_in sample_wave 44100 in
  let c := with_toggles notebook_config false false false false false in
  exists f, notebook L c = Ok f
            /\ samplerate f = 44100%Z
            /\ samples f = [32767; -32768]%Z
            /\ map pcm_16_to_float (samples f) <> sample_wave.
Proof.
  cbv zeta. destruct pcm_16_full_scale as [Hone Hminus].
  exists (mkFile "corporate_voice.wav" 44100 1 [32767; -32768]%Z).
  split; [| split; [reflexivity | split; [reflexivity |]]].
  - unfold notebook, cell_load. cbn [librosa_load stand_in bind].
    unfold effect_cells, cell_pitch_shift, cell_ring_mod, cell_bandpass, cell_flanger,
      cell_phaser, cell_write, sf_write.
    cbn [with_toggles DO_PITCH_SHIFT DO_RING_MOD DO_BANDPASS DO_FLANGER DO_PHASER
         OUTPUT_FILE notebook_config bind y_current sr array1 shape data sample_wave map].
    rewrite Hone, Hminus. reflexivity.
  - cbn [samples map]. unfold pcm_16_to_float, sample_wave.
    intros H. injection H as H _. lra.
Qed.

(** C10, amended.  With the five flags False the effect cells hand the
    loaded state on as it is, and the notebook is one [sf.write] of the
    decoded array at the decoded rate.  For a mono waveform [v] at a positive
    rate the file corporate_voice.wav has one channel, the rate of the input,
    and for every sample of [v], in order, its PCM_16 code: read back, a
    sample equals the input sample exactly when that lies on the 16-bit grid
    (a code from -32768 to 32767 over 32768), and within full scale it is
    off by 1/32768 at most. *)
Theorem all_toggles_off_writes_pcm_16 (L : AudioLibs) (c : config) (y0 : ndarray) (sr0 : Z) :
  DO_PITCH_SHIFT c = false -> DO_RING_MOD c = false -> DO_BANDPASS c = false ->
  DO_FLANGER c = false -> DO_PHASER c = false ->
  OUTPUT_FILE c = OUTPUT_FILE notebook_config ->
  librosa_load L INPUT_FILE = Ok (y0, sr0) ->
  effect_cells L c (mkState y0 sr0 y0) = Ok (mkState y0 sr0 y0)
  /\ notebook L c = sf_write "corporate_voice.wav" y0 sr0
  /\ forall v, y0 = array1 v -> (0 < sr0)%Z ->
       exists codes,
         notebook L c = Ok (mkFile "corporate_voice.wav" sr0 1 codes)
         /\ length codes = length v
         /\ forall i, (i < length v)%nat ->
              let x := nth i v 0 in
              let back := pcm_16_to_float (nth i codes 0%Z) in
              nth i codes 0%Z = pcm_16 x
              /\ (back = x <-> exists k, (-32768 <= k <= 32767)%Z /\ x = IZR k / 32768)
              /\ (-1 <= x <= 1 -> Rabs (back - x) <= 1 / 32768).
Proof.
  intros H1 H2 H3 H4 H5 Hname Hload.
  assert (He : effect_cells L c (mkState y0 sr0 y0) = Ok (mkState y0 sr0 y0)).
  { unfold effect_cells, cell_pitch_shift, cell_ring_mod, cell_bandpass, cell_flanger,
      cell_phaser. rewrite H1, H2, H3, H4, H5. reflexivity. }
  assert (Hn : notebook L c = sf_write "corporate_voice.wav" y0 sr0).
  { unfold notebook, cell_load. rewrite Hload. cbn [bind]. rewrite He. cbn [bind].
    unfold cell_write. rewrite Hname. reflexivity. }
  split; [exact He | split; [exact Hn |]].
  intros v -> _. exists (map pcm_16 v).
  split; [rewrite Hn; reflexivity | split; [apply length_map |]].
  intros i Hi. cbv zeta.
  assert (Hcode : nth i (map pcm_16 v) 0%Z = pcm_16 (nth i v 0)).
  { rewrite (nth_indep _ 0%Z (pcm_16 0)) by (rewrite length_map; exact Hi).
    apply map_nth. }
  rewrite Hcode.
  split; [reflexivity | split; [apply pcm_16_exact | apply pcm_16_error]].
Qed.

Lemma all_toggles_off_writes_pcm_16_witness :
  let L := stand_in [1 / 2; -1 / 4] 44100 in
  let c := with_toggles notebook_config false false false false false in
  librosa_load L INPUT_FILE = Ok (array1 [1 / 2; -1 / 4], 44100%Z)
  /\ (0 < 44100)%Z
  /\ exists codes,
       notebook L c = Ok (mkFile "corporate_voice.wav" 44100 1 codes)
       /\ length codes = 2%nat
       /\ nth 0 codes 0%Z = pcm_16 (1 / 2)
       /\ pcm_16_to_float (nth 0 codes 0%Z) = 1 / 2.
Proof.
  cbv zeta. split; [reflexivity | split; [reflexivity |]].
  destruct (all_toggles_off_writes_pcm_16 (stand_in [1 / 2; -1 / 4] 44100)
              (with_toggles notebook_config false false false false false)
              (array1 [1 / 2; -1 / 4]) 44100
              eq_refl eq_refl eq_refl eq_refl eq_refl eq_refl eq_refl)
    as (_ & _ & Hfile).
  destruct (Hfile [1 / 2; -1 / 4] eq_refl eq_refl) as (codes & Hn & Hlen & Hcodes).
  exists codes. split; [exact Hn | split; [exact Hlen |]].
  destruct (Hcodes 0%nat ltac:(cbn; lia)) as (Hcode & Hexact & _).
  split; [exact Hcode |].
  apply Hexact. exists 16384%Z. split; [lia |]. cbn [nth]. lra.
Defined.

(** *** More on ring modulation *)

(** The ring-modulation body on a one-dimensional signal, in closed form. *)
Lemma apply_ring_mod_1d (c : config) (st : state) (v : list R) :
  y_current st = array1 v -> sr st <> 0%Z ->
  apply_ring_mod c st =
  Ok (set_current st
        (array1 (map (fun k => nth k v 0
                               * sin (2 * PI * RING_MOD_FREQ c * (INR k / IZR (sr st))))
                     (seq 0 (length v))))).
Proof.
  intros Hv Hsr. unfold apply_ring_mod. rewrite Hv.
  unfold len. cbn [array1 shape bind].
  destruct (Z.eqb_spec (sr st) 0) as [E|_]; [contradiction |].
  set (n := length v).
  rewrite (np_mul_same_1d (mkArr [n] v) _ n eq_refl)
    by (unfold np_sin, np_scale; cbn [shape]; apply linspace_shape).
  cbn [bind data]. f_equal. f_equal. unfold array1.
  rewrite length_map, length_seq. f_equal.
  apply map_ext_in. intros k Hk. apply in_seq in Hk.
  rewrite carrier_nth by (try assumption; lia). reflexivity.
Qed.

Lemma ring_sample_nth (f : R) (rate : Z) (v : list R) (i : nat) :
  (i < length v)%nat ->
  nth i (map (fun k => nth k v 0 * sin (2 * PI * f * (INR k / IZR rate)))
             (seq 0 (length v))) 0
  = nth i v 0 * sin (2 * PI * f * (INR i / IZR rate)).
Proof.
  intros Hi.
  exact (nth_map_seq (fun k => nth k v 0 * sin (2 * PI * f * (INR k / IZR rate)))
           (length v) i Hi).
Qed.

(** X1.  Ring modulation silences the first sample: whatever the signal and
    the carrier frequency, a non-empty one-dimensional signal comes out with
    0 as its first sample, the carrier starting at sin 0. *)
Theorem ring_mod_first_sample (c : config) (st : state) (x0 : R) (v : list R) :
  y_current st = array1 (x0 :: v) -> sr st <> 0%Z ->
  exists w, apply_ring_mod c st = Ok (set_current st (array1 (0 :: w)))
            /\ length w = length v.
Proof.
  intros Hv Hsr.
  rewrite (apply_ring_mod_1d c st (x0 :: v) Hv Hsr).
  cbn [length seq map].
  eexists. split.
  - f_equal. f_equal. f_equal. f_equal.
    cbn [nth INR]. unfold Rdiv. rewrite Rmult_0_l, Rmult_0_r, sin_0. ring.
  - rewrite length_map, length_seq. reflexivity.
Qed.

Lemma ring_mod_first_sample_witness :
  y_current sample_state = array1 (1 :: [-1]) /\ sr sample_state <> 0%Z
  /\ exists w, apply_ring_mod notebook_config sample_state
               = Ok (set_current sample_state (array1 (0 :: w)))
               /\ length w = 1%nat.
Proof.
  split; [reflexivity | split; [discriminate |]].
  apply (ring_mod_first_sample notebook_config sample_state 1 [-1]).
  - reflexivity.
  - discriminate.
Defined.

(** X2.  Ring modulation never makes a sample larger: the magnitude of every
    output sample is at most that of the input sample at the same place. *)
Theorem ring_mod_never_louder (c : config) (st : state) (v : list R) :
  y_current st = array1 v -> sr st <> 0%Z ->
  exists w, apply_ring_mod c st = Ok (set_current st (array1 w))
            /\ length w = length v
            /\ forall i, Rabs (nth i w 0) <= Rabs (nth i v 0).
Proof.
  intros Hv Hsr.
  rewrite (apply_ring_mod_1d c st v Hv Hsr).
  eexists. split; [reflexivity | split].
  - rewrite length_map, length_seq. reflexivity.
  - intros i. destruct (Nat.lt_ge_cases i (length v)) as [Hi|Hi].
    + rewrite ring_sample_nth by exact Hi.
      rewrite Rabs_mult.
      rewrite <- (Rmult_1_r (Rabs (nth i v 0))) at 2.
      apply Rmult_le_compat_l; [apply Rabs_pos |].
      apply Rabs_le. apply SIN_bound.
    + rewrite !nth_overflow; [apply Rle_refl | exact Hi |].
      rewrite length_map, length_seq. exact Hi.
Qed.

Lemma ring_mod_never_louder_witness :
  y_current sample_state = array1 sample_wave /\ sr sample_state <> 0%Z
  /\ exists w, apply_ring_mod notebook_config sample_state
               = Ok (set_current sample_state (array1 w))
               /\ length w = length sample_wave
               /\ forall i, Rabs (nth i w 0) <= Rabs (nth i sample_wave 0).
Proof.
  split; [reflexivity | split; [discriminate |]].
  apply (ring_mod_never_louder notebook_config sample_state sample_wave).
  - reflexivity.
  - discriminate.
Defined.

(** *** Errors of the effect cells *)

(** X5.  At a sample rate of 0 the two cells that divide by the rate raise
    ZeroDivisionError: ring modulation on any sized array, and the bandpass
    before it has asked SciPy for anything (so for every library).  A
    notebook that decodes a one-dimensional signal at rate 0, with pitch
    shift off and ring modulation or the bandpass on, raises it and writes
    no file. *)
Theorem zero_rate_raises (L : AudioLibs) (c : config) (st : state) :
  sr st = 0%Z ->
  (shape (y_current st) <> [] -> apply_ring_mod c st = Raise ZeroDivisionError)
  /\ apply_bandpass L c st = Raise ZeroDivisionError
  /\ (librosa_load L INPUT_FILE = Ok (y_current st, 0%Z) ->
      ndim (y_current st) = 1%nat ->
      DO_PITCH_SHIFT c = false ->
      DO_RING_MOD c = true \/ DO_BANDPASS c = true ->
      notebook L c = Raise ZeroDivisionError).
Proof.
  intros Hsr.
  assert (Hring : forall s, sr s = 0%Z -> shape (y_current s) <> [] ->
                            apply_ring_mod c s = Raise ZeroDivisionError).
  { intros s Hs Hshape. unfold apply_ring_mod, len.
    destruct (shape (y_current s)) as [|n rest]; [contradiction |].
    cbn [bind]. rewrite Hs. reflexivity. }
  assert (Hband : forall s, sr s = 0%Z -> apply_bandpass L c s = Raise ZeroDivisionError).
  { intros s Hs. unfold apply_bandpass, bandpass_filter. rewrite Hs.
    destruct (Req_dec_T (0.5 * 0) 0) as [_|N]; [reflexivity |].
    exfalso. apply N. lra. }
  split; [apply Hring; exact Hsr | split; [apply Hband; exact Hsr |]].
  intros Hload H1 Hpitch Hon.
  unfold notebook, cell_load. rewrite Hload. cbn [bind].
  unfold effect_cells, cell_pitch_shift. rewrite Hpitch. cbn [bind].
  unfold cell_ring_mod, cell_bandpass.
  set (s0 := mkState (y_current st) 0 (y_current st)).
  assert (Hshape : shape (y_current s0) <> []).
  { apply ndim_one in H1. destruct H1 as [n Hn]. cbn [s0 y_current]. rewrite Hn. discriminate. }
  destruct (DO_RING_MOD c).
  - rewrite (Hring s0 eq_refl Hshape). reflexivity.
  - destruct Hon as [Hon|Hon]; [discriminate Hon |].
    cbn [bind]. rewrite Hon, (Hband s0 eq_refl). reflexivity.
Qed.

Lemma zero_rate_raises_witness :
  let L := stand_in sample_wave 0 in
  let c := with_toggles notebook_config false false true true true in
  let st := mkState (array1 sample_wave) 0 (array1 sample_wave) in
  sr st = 0%Z /\ notebook L c = Raise ZeroDivisionError.
Proof.
  cbv zeta. split; [reflexivity |].
  destruct (zero_rate_raises (stand_in sample_wave 0)
              (with_toggles notebook_config false false true true true)
              (mkState (array1 sample_wave) 0 (array1 sample_wave)) eq_refl)
    as (_ & _ & H).
  apply H.
  - reflexivity.
  - reflexivity.
  - reflexivity.
  - right. reflexivity.
Defined.

(** X6.  The two plugin cells take the board's answer through
    [np.squeeze(axis=0)]: when its first axis has size 1 the axis is dropped
    and the rest is bound to [y_current]; when its first axis has any other
    size (two channels, say, or none) the cell raises ValueError and
    [y_current] is not rebound. *)
Theorem plugin_cells_refuse_other_shapes (L : AudioLibs) (c : config) (st : state)
        (processed : ndarray) (n : nat) (s : list nat) :
  shape processed = n :: s ->
  let squeezed :=
    if (n =? 1)%nat then Ok (set_current st (mkArr s (data processed)))
    else Raise ValueError in
  (board L [Chorus (FLANGER_RATE c) (FLANGER_DEPTH c) (FLANGER_CENTRE_DELAY_MS c)
                   (FLANGER_FEEDBACK c) (FLANGER_MIX c)]
         (expand_dims0 (y_current st)) (sr st) = Ok processed ->
   apply_flanger L c st = squeezed)
  /\ (board L [Phaser (PHASER_RATE c) (PHASER_DEPTH c) (PHASER_MIX c)]
            (expand_dims0 (y_current st)) (sr st) = Ok processed ->
      apply_phaser L c st = squeezed).
Proof.
  intros Hshape. cbv zeta.
  assert (Hsq : bind (squeeze0 processed) (fun y' => Ok (set_current st y'))
                = if (n =? 1)%nat then Ok (set_current st (mkArr s (data processed)))
                  else Raise ValueError).
  { unfold squeeze0. rewrite Hshape. destruct n as [|[|n]]; reflexivity. }
  split; intros Hb.
  - unfold apply_flanger. rewrite Hb. cbn [bind]. exact Hsq.
  - unfold apply_phaser. rewrite Hb. cbn [bind]. exact Hsq.
Qed.

Lemma plugin_cells_refuse_other_shapes_witness :
  let L := stereo_library sample_wave 2 in
  let processed := two_channel_board (expand_dims0 (array1 sample_wave)) in
  shape processed = [2; 2]%nat
  /\ apply_flanger L notebook_config sample_state = Raise ValueError
  /\ apply_phaser L notebook_config sample_state = Raise ValueError.
Proof.
  cbv zeta. split; [reflexivity |].
  destruct (plugin_cells_refuse_other_shapes (stereo_library sample_wave 2) notebook_config
              sample_state (two_channel_board (expand_dims0 (array1 sample_wave)))
              2%nat [2%nat] eq_refl) as [Hf Hp].
  split; [apply Hf | apply Hp]; reflexivity.
Defined.

(** *** The band edges *)

(** X7.  At a positive sample rate the two edges [bandpass_filter] hands to
    [butter] are a valid band, [0 < low < high < 1], exactly when
    [0 < lowcut < highcut < fs / 2].  With the cutoffs of the notebook
    (300 and 5000 Hz) that is exactly when the rate is above 10000 Hz. *)
Theorem band_edges_valid (L : AudioLibs) (x : ndarray) (lowcut highcut : R) (fs : Z)
        (order : nat) :
  (0 < fs)%Z ->
  exists low high,
    bandpass_filter L x lowcut highcut fs order
    = ('(b, a) <- butter L order [low; high] "band" ;; lfilter L b a x)
    /\ (0 < low /\ low < high /\ high < 1
        <-> 0 < lowcut /\ lowcut < highcut /\ 2 * highcut < IZR fs)
    /\ (lowcut = BANDPASS_LOW notebook_config ->
        highcut = BANDPASS_HIGH notebook_config ->
        (0 < low /\ low < high /\ high < 1 <-> (10000 < fs)%Z)).
Proof.
  intros Hfs.
  assert (Hpos : 0 < IZR fs) by (apply IZR_lt; exact Hfs).
  assert (Hny : 0 < 0.5 * IZR fs) by lra.
  exists (lowcut / (0.5 * IZR fs)), (highcut / (0.5 * IZR fs)).
  assert (Hiff : 0 < lowcut / (0.5 * IZR fs)
                 /\ lowcut / (0.5 * IZR fs) < highcut / (0.5 * IZR fs)
                 /\ highcut / (0.5 * IZR fs) < 1
                 <-> 0 < lowcut /\ lowcut < highcut /\ 2 * highcut < IZR fs).
  { set (ny := 0.5 * IZR fs) in *.
    assert (Hinv : 0 < / ny) by (apply Rinv_0_lt_compat; exact Hny).
    assert (Hmul : forall a, a / ny * ny = a) by (intros a; field; lra).
    split.
    - intros (H1 & H2 & H3).
      assert (A1 : 0 < lowcut / ny * ny) by (apply Rmult_lt_0_compat; assumption).
      assert (A2 : lowcut / ny * ny < highcut / ny * ny)
        by (apply Rmult_lt_compat_r; assumption).
      assert (A3 : highcut / ny * ny < 1 * ny) by (apply Rmult_lt_compat_r; assumption).
      rewrite !Hmul in *. unfold ny in A3. repeat split; lra.
    - intros (H1 & H2 & H3). unfold Rdiv. repeat split.
      + apply Rmult_lt_0_compat; assumption.
      + apply Rmult_lt_compat_r; assumption.
      + apply (Rmult_lt_reg_r ny); [exact Hny |].
        fold (highcut / ny). rewrite Hmul. unfold ny. lra. }
  split; [| split].
  - unfold bandpass_filter.
    destruct (Req_dec_T (0.5 * IZR fs) 0) as [E|_]; [lra | reflexivity].
  - exact Hiff.
  - intros -> ->. rewrite Hiff. cbn [BANDPASS_LOW BANDPASS_HIGH notebook_config].
    split.
    + intros (_ & _ & H). apply lt_IZR. lra.
    + intros H. apply IZR_lt in H. lra.
Qed.

Lemma band_edges_valid_witness :
  (0 < 44100)%Z
  /\ exists low high,
       bandpass_filter (stand_in sample_wave 44100) (array1 sample_wave) 300 5000 44100 4
       = ('(b, a) <- butter (stand_in sample_wave 44100) 4 [low; high] "band" ;;
          lfilter (stand_in sample_wave 44100) b a (array1 sample_wave))
       /\ (0 < low /\ low < high /\ high < 1).
Proof.
  split; [reflexivity |].
  destruct (band_edges_valid (stand_in sample_wave 44100) (array1 sample_wave)
              300 5000 44100 4 eq_refl) as (low & high & Heq & _ & Hnb).
  exists low, high. split; [exact Heq |].
  apply (Hnb eq_refl eq_refl). reflexivity.
Defined.

End VocoderSpec.

(** ** The cron wrapper *)

Module RunJobsSpec.

Import RunJobs.
Local Open Scope string_scope.

Lemma resolve_project_dir (dir user : string) :
  resolve dir (project_dir user) = project_dir user.
Proof. reflexivity. Qed.

Lemma resolve_activate_path (dir user : string) :
  resolve dir (activate_path user) = activate_path user.
Proof. reflexivity. Qed.

Lemma resolve_dotenv (user : string) :
  resolve (project_dir user) ".env" = project_dir user ++ "/.env".
Proof. reflexivity. Qed.

Ltac run_script :=
  unfold run, run_jobs, sh_bind, test, test_f, when, cd, set_var, expand, echo, echo_err,
    exit, start, set_status, last_status, command, source_dotenv, source_activate,
    run_deactivate;
  cbn -[project_dir activate_path resolve inherited environ_of];
  rewrite ?resolve_project_dir, ?resolve_dotenv, ?resolve_activate_path.

Ltac split_echo :=
  repeat match goal with
         | |- context [echo_ok ?h ?l] => destruct (echo_ok h l)
         end.

Ltac finish_run :=
  cbn -[project_dir activate_path resolve inherited environ_of];
  split_echo; repeat split.

(** Step 1 fails. *)
Lemma run_without_argument (h : host) :
  let r := run h [] in
  let line := "Usage: " ++ script_name h ++ " <username>" in
  fst r = 1
  /\ stdout (snd r) = [line]
  /\ stderr (snd r) = complaints h [line]
  /\ invoked (snd r) = []
  /\ cwd (snd r) = start_dir h.
Proof. cbv zeta. run_script. split_echo; repeat split. Qed.

(** Step 3 fails. *)
Lemma run_without_project_dir (h : host) (user : string) (rest : list string) :
  is_dir h (project_dir user) = false ->
  let r := run h (user :: rest) in
  let line := "Project directory not found at " ++ project_dir user ++ "; exiting." in
  fst r = 1
  /\ stdout (snd r) = [line]
  /\ stderr (snd r) = cd_complaint h (project_dir user) :: complaints h [line]
  /\ invoked (snd r) = []
  /\ cwd (snd r) = start_dir h.
Proof.
  intros Hdir. cbv zeta. run_script. rewrite Hdir. finish_run.
Qed.

(** Step 6 fails. *)
Lemma run_without_venv (h : host) (user : string) (rest : list string) :
  is_dir h (project_dir user) = true ->
  is_file h (activate_path (user_at_step_6 h user)) = false ->
  let r := run h (user :: rest) in
  let line :=
    "Could not find virtual environment at " ++ activate_path (user_at_step_6 h user) ++ "." in
  fst r = 1
  /\ stdout (snd r) = [line; "Please adjust the path as needed."]
  /\ stderr (snd r) = complaints h [line; "Please adjust the path as needed."]
  /\ invoked (snd r) = []
  /\ cwd (snd r) = project_dir user.
Proof.
  intros Hdir Hvenv. cbv zeta. unfold user_at_step_6, vars_at_step_4, vars_at_step_2 in *.
  run_script. rewrite Hdir.
  cbn -[project_dir activate_path resolve inherited environ_of].
  rewrite ?resolve_dotenv.
  destruct (is_file h (project_dir user ++ "/.env"));
    cbn -[project_dir activate_path resolve inherited environ_of] in Hvenv |- *;
    rewrite ?resolve_activate_path, Hvenv; finish_run.
Qed.

(** All three checks pass. *)
Lemma run_completed (h : host) (user : string) (rest : list string) :
  is_dir h (project_dir user) = true ->
  is_file h (activate_path (user_at_step_6 h user)) = true ->
  let r := run h (user :: rest) in
  let failed := negb (daily_intro_status h (user :: rest) =? 0)%nat in
  fst r = (if echo_ok h "Jobs completed." then 0 else 1)
  /\ stdout (snd r) = ["Running daily_intro.py..."; "Jobs completed."]
  /\ stderr (snd r) =
       (complaints h ["Running daily_intro.py..."]
        ++ (if failed then ["daily_intro.py encountered an error."] else [])
        ++ complaints h ["Jobs completed."])%list
  /\ invoked (snd r) = [["python"; "daily_intro.py"]]
  /\ cwd (snd r) = project_dir user.
Proof.
  intros Hdir Hvenv. cbv zeta.
  unfold daily_intro_status, user_at_step_6, vars_at_step_4, vars_at_step_2 in *.
  run_script. rewrite Hdir.
  cbn -[project_dir activate_path resolve inherited environ_of].
  rewrite ?resolve_dotenv.
  destruct (is_file h (project_dir user ++ "/.env"));
    cbn -[project_dir activate_path resolve inherited environ_of] in Hvenv |- *;
    rewrite ?resolve_activate_path, Hvenv;
    cbn -[project_dir activate_path resolve inherited environ_of];
    split_echo;
    cbn -[project_dir activate_path resolve inherited environ_of];
    match goal with
    | |- context [(?n =? 0)%nat] => destruct (n =? 0)%nat
    end;
    cbn -[project_dir activate_path resolve inherited environ_of];
    match goal with
    | |- context [String.eqb ?v ""] => destruct (String.eqb v "")
    end;
    finish_run.
Qed.

(** *** The value of USER_NAME at step 6 *)










(** *** The three checks *)




(** *** A failing daily_intro.py *)




(** *** More on the wrapper *)



(** X9.  The argument check counts the arguments and reads only the first:
    the usage line is echoed exactly when there is no argument (an empty
    first argument passes), and arguments after the first change nothing. *)
Theorem only_first_argument_counts (h : host) (args : list string) :
  (In ("Usage: " ++ script_name h ++ " <username>") (stdout (snd (run h args)))
   <-> args = [])
  /\ run h args = run h (firstn 1 args).
Proof.
  split.
  - destruct args as [|user rest].
    + destruct (run_without_argument h) as (_ & Hout & _). rewrite Hout.
      split; [reflexivity |]. intros _. left. reflexivity.
    + split; [| discriminate]. intros Hin. exfalso.
      destruct (is_dir h (project_dir user)) eqn:Hdir.
      * destruct (is_file h (activate_path (user_at_step_6 h user))) eqn:Hvenv.
        -- destruct (run_completed h user rest Hdir Hvenv) as (_ & Hout & _).
           rewrite Hout in Hin. destruct Hin as [H|[H|[]]]; discriminate H.
        -- destruct (run_without_venv h user rest Hdir Hvenv) as (_ & Hout & _).
           rewrite Hout in Hin. destruct Hin as [H|[H|[]]]; discriminate H.
      * destruct (run_without_project_dir h user rest Hdir) as (_ & Hout & _).
        rewrite Hout in Hin. destruct Hin as [H|[]]. discriminate H.
  - destruct args as [|user rest]; reflexivity.
Qed.





End RunJobsSpec.

(** ** The daily intro notebook *)

Module DailyIntroSpec.

Import DailyIntro.
Local Open Scope string_scope.

Lemma call_None (ev : event) (log : list event) :
  call ev None log = (Ok tt, (log ++ [ev])%list).
Proof. reflexivity. Qed.

Lemma call_Some (ev : event) (e : exn) (log : list event) :
  call ev (Some e) log = (Raise e, (log ++ [ev])%list).
Proof. reflexivity. Qed.

Lemma written_app (path : string) (l1 l2 : list event) :
  written path (l1 ++ l2) = (written path l1 ++ written path l2)%list.
Proof. unfold written. apply flat_map_app. Qed.

Lemma written_writes (path : string) (chunks : list (list Byte.byte)) :
  written path (map (Write path) chunks) = concat chunks.
Proof.
  unfold written. induction chunks as [|chunk rest IH]; cbn [map flat_map concat].
  - reflexivity.
  - rewrite String.eqb_refl, IH. reflexivity.
Qed.

(** The write loop: the calls it logs and how it ends. *)
Lemma for_each_writes (sv : services) (path : string) (chunks : list (list Byte.byte))
      (log : list event) :
  for_each chunks (fun chunk => file_write sv path chunk) log
  = (match snd (attempts sv path (written path log) chunks) with
     | Some e => Raise e
     | None => Ok tt
     end,
     (log ++ map (Write path) (fst (attempts sv path (written path log) chunks)))%list).
Proof.
  revert log. induction chunks as [|chunk rest IH]; intros log.
  - cbn [for_each attempts fst snd map]. rewrite app_nil_r. reflexivity.
  - cbn [for_each attempts]. unfold io_bind, file_write.
    destruct (write sv path (written path log) chunk) as [e|].
    + rewrite call_Some. reflexivity.
    + rewrite call_None, IH.
      rewrite written_app. cbn [written flat_map]. rewrite String.eqb_refl, app_nil_r.
      destruct (attempts sv path (written path log ++ chunk) rest) as [tried failure].
      cbn [fst snd map]. rewrite <- app_assoc. reflexivity.
Qed.

(** What the loop hands to [write] is a beginning of what the stream
    yielded, and all of it when no write raises. *)
Lemma attempts_prefix (sv : services) (path : string) (chunks : list (list Byte.byte))
      (sofar : list Byte.byte) :
  (exists n, fst (attempts sv path sofar chunks) = firstn n chunks)
  /\ (snd (attempts sv path sofar chunks) = None ->
      fst (attempts sv path sofar chunks) = chunks)
  /\ (forall e, snd (attempts sv path sofar chunks) = Some e ->
        exists before chunk, write sv path before chunk = Some e).
Proof.
  revert sofar. induction chunks as [|chunk rest IH]; intros sofar; cbn [attempts].
  - split; [exists 0%nat; reflexivity | split; [reflexivity | discriminate]].
  - destruct (write sv path sofar chunk) as [e|] eqn:Hw.
    + split; [exists 1%nat; reflexivity | split; [discriminate |]].
      intros e' H. injection H as <-. exists sofar, chunk. exact Hw.
    + destruct (IH (sofar ++ chunk)%list) as ((n & Hn) & Hall & Hsome).
      destruct (attempts sv path (sofar ++ chunk) rest) as [tried failure].
      cbn [fst snd] in *. split; [| split].
      * exists (S n). cbn [firstn]. rewrite Hn. reflexivity.
      * intros H. rewrite (Hall H). reflexivity.
      * exact Hsome.
Qed.

Ltac tidy := repeat (cbn [app firstn]; rewrite <- ?app_assoc); reflexivity.

(** The run, call by call. *)
Lemma run_cases (sv : services) :
  let opening := [Print (strftime_now sv "%A, %B %d, %Y"); Makedirs intro_dir;
                  Convert (greeting sv) "15ykVVhNtZjeRtlW8QZC" "eleven_multilingual_v2"
                          "mp3_44100_128" intro_settings] in
  run sv =
  match makedirs sv intro_dir with
  | Some e => (Raise e, firstn 2 opening)
  | None =>
    match requested sv with
    | Raise e => (Raise e, opening)
    | Ok (chunks, broken) =>
      match open_wb sv mp3_path with
      | Some e => (Raise e, (opening ++ [Open mp3_path])%list)
      | None =>
        let stored :=
          (opening ++ [Open mp3_path]
             ++ map (Write mp3_path) (fst (attempts sv mp3_path [] chunks))
             ++ [Close mp3_path])%list in
        match close sv mp3_path with
        | Some e => (Raise e, stored)
        | None =>
          match snd (attempts sv mp3_path [] chunks) with
          | Some e => (Raise e, stored)
          | None =>
            match broken with
            | Some e => (Raise e, stored)
            | None =>
              let vocoding :=
                (stored ++ [Print ("Saved MP3 to " ++ mp3_path);
                            VocodeAudio mp3_path wav_path])%list in
              match vocode_audio sv mp3_path wav_path with
              | Some e => (Raise e, vocoding)
              | None =>
                (match update_trello_card_audio sv "Daily Wakeup Intro" wav_path with
                 | Some e => Raise e
                 | None => Ok tt
                 end,
                 (vocoding ++ [UpdateTrelloCardAudio "Daily Wakeup Intro" wav_path])%list)
              end
            end
          end
        end
      end
    end
  end.
Proof.
  cbv zeta. unfold run, daily_intro. cbv zeta.
  change (os_path_join "temp" "personal_daily_intro") with intro_dir.
  change (os_path_join intro_dir "eleven_personal_intro.mp3") with mp3_path.
  change (os_path_join intro_dir "eleven_personal_intro.wav") with wav_path.
  fold intro_settings. fold (greeting sv). fold (requested sv).
  unfold io_bind, print, call_for, with_open_wb, for_chunk_in, io_ret, io_raise.
  rewrite call_None. cbn [app].
  destruct (makedirs sv intro_dir) as [e|]; rewrite ?call_Some, ?call_None; [reflexivity |].
  cbn [app].
  destruct (requested sv) as [[chunks broken]|e]; [| reflexivity].
  cbn [fst snd].
  destruct (open_wb sv mp3_path) as [e|]; rewrite ?call_Some, ?call_None; [reflexivity |].
  unfold io_bind. rewrite ?call_None. cbv beta iota. rewrite for_each_writes.
  change (written mp3_path
            ([Print (strftime_now sv "%A, %B %d, %Y"); Makedirs intro_dir;
              Convert (greeting sv) "15ykVVhNtZjeRtlW8QZC" "eleven_multilingual_v2"
                      "mp3_44100_128" intro_settings] ++ [Open mp3_path]))
    with (@nil Byte.byte).
  destruct (attempts sv mp3_path [] chunks) as [tried failure]. cbn [fst snd].
  destruct failure as [e|].
  - destruct (close sv mp3_path); tidy.
  - destruct broken as [e|].
    + destruct (close sv mp3_path); tidy.
    + destruct (close sv mp3_path); [tidy |].
      rewrite call_None.
      destruct (vocode_audio sv mp3_path wav_path) as [e|]; rewrite ?call_Some, ?call_None;
        [tidy |].
      destruct (update_trello_card_audio sv "Daily Wakeup Intro" wav_path);
        rewrite ?call_Some, ?call_None; tidy.
Qed.

Lemma existsb_filter_nil {A : Type} (f : A -> bool) (l : list A) :
  existsb f l = false <-> filter f l = [].
Proof.
  induction l as [|a l IH]; cbn [existsb filter].
  - split; reflexivity.
  - destruct (f a); cbn [orb].
    + split; discriminate.
    + exact IH.
Qed.

(** Writes are neither a vocoder call nor an upload. *)
Lemma existsb_writes (f : event -> bool) (path : string) (chunks : list (list Byte.byte)) :
  (forall chunk, f (Write path chunk) = false) ->
  existsb f (map (Write path) chunks) = false.
Proof.
  intros Hf. induction chunks as [|chunk rest IH]; cbn [map existsb].
  - reflexivity.
  - rewrite Hf, IH. reflexivity.
Qed.

Lemma filter_writes (f : event -> bool) (path : string) (chunks : list (list Byte.byte)) :
  (forall chunk, f (Write path chunk) = false) ->
  filter f (map (Write path) chunks) = [].
Proof.
  intros Hf. induction chunks as [|chunk rest IH]; cbn [map filter].
  - reflexivity.
  - rewrite Hf. exact IH.
Qed.

Ltac on_the_log :=
  rewrite ?existsb_app, ?filter_app, ?written_app, ?written_writes;
  rewrite ?existsb_writes, ?filter_writes by reflexivity;
  cbn [existsb filter written flat_map app orb is_upload is_vocode length];
  rewrite ?app_nil_r.




(** X12.  A stream that breaks off ends the run there, with an exception:
    that of the stream, unless a write raised before the stream broke off
    (then that one's) or the closing raises (then the closing's).  Closing
    the file is the last thing that happens, and neither the vocoder nor the
    Trello upload is called. *)
Theorem broken_stream_ends_the_run (sv : services) (chunks : list (list Byte.byte))
        (e : exn) :
  makedirs sv intro_dir = None ->
  requested sv = Ok (chunks, Some e) ->
  open_wb sv mp3_path = None ->
  fst (run sv)
  = Raise (match close sv mp3_path, snd (attempts sv mp3_path [] chunks) with
           | Some closing, _ => closing
           | None, Some writing => writing
           | None, None => e
           end)
  /\ last (snd (run sv)) (Print "") = Close mp3_path
  /\ existsb is_vocode (snd (run sv)) = false
  /\ existsb is_upload (snd (run sv)) = false.
Proof.
  intros Hdirs Hreq Hopen.
  rewrite (run_cases sv). cbv zeta. rewrite Hdirs, Hreq, Hopen.
  unfold writes_return.
  assert (Hboth : forall r r' : result unit,
             let log := (r, ([Print (strftime_now sv "%A, %B %d, %Y"); Makedirs intro_dir;
                              Convert (greeting sv) "15ykVVhNtZjeRtlW8QZC"
                                      "eleven_multilingual_v2" "mp3_44100_128" intro_settings]
                               ++ [Open mp3_path]
                               ++ map (Write mp3_path) (fst (attempts sv mp3_path [] chunks))
                               ++ [Close mp3_path])%list) in
             last (snd log) (Print "") = Close mp3_path
             /\ existsb is_vocode (snd log) = false
             /\ existsb is_upload (snd log) = false).
  { intros r _. cbv zeta. cbn [snd]. split; [| split].
    - rewrite !app_assoc. apply last_last.
    - on_the_log. reflexivity.
    - on_the_log. reflexivity. }
  destruct (close sv mp3_path) as [ec|].
  { split; [reflexivity | exact (Hboth (Raise ec) (Raise ec))]. }
  destruct (snd (attempts sv mp3_path [] chunks)) as [ew|].
  { split; [reflexivity | exact (Hboth (Raise ew) (Raise ew))]. }
  split; [reflexivity | exact (Hboth (Raise e) (Raise e))].
Qed.

Lemma broken_stream_ends_the_run_witness :
  let sv := studio [[Byte.x49]] (Some (LibraryError "connection")) 9 in
  requested sv = Ok ([[Byte.x49]], Some (LibraryError "connection"))
  /\ writes_return sv [[Byte.x49]] /\ close sv mp3_path = None
  /\ fst (run sv) = Raise (LibraryError "connection")
  /\ existsb is_upload (snd (run sv)) = false.
Proof.
  cbv zeta. split; [reflexivity | split; [reflexivity | split; [reflexivity |]]].
  destruct (broken_stream_ends_the_run
              (studio [[Byte.x49]] (Some (LibraryError "connection")) 9)
              [[Byte.x49]] (LibraryError "connection") eq_refl eq_refl eq_refl)
    as (H1 & _ & _ & H4).
  split; [exact H1 | exact H4].
Defined.

(** X13.  The Trello card is touched only after everything else worked:
    [update_trello_card_audio] is called exactly when the directory call,
    the whole stream, the opening of the file, every write, the closing and
    the vocoder all returned normally; it is called at most once, as the
    last call, and always for the card "Daily Wakeup Intro" with the
    vocoder's output path. *)
Theorem upload_only_after_success (sv : services) :
  let log := snd (run sv) in
  (existsb is_upload log = true <-> all_went_well sv)
  /\ (length (filter is_upload log) <= 1)%nat
  /\ (existsb is_upload log = true ->
      last log (Print "") = UpdateTrelloCardAudio "Daily Wakeup Intro" wav_path)
  /\ (forall card path, In (UpdateTrelloCardAudio card path) log ->
        card = "Daily Wakeup Intro" /\ path = wav_path).
Proof.
  cbv zeta.
  assert (Hcases :
            (filter is_upload (snd (run sv)) = [] /\ ~ all_went_well sv)
            \/ (filter is_upload (snd (run sv))
                = [UpdateTrelloCardAudio "Daily Wakeup Intro" wav_path]
                /\ all_went_well sv
                /\ last (snd (run sv)) (Print "")
                   = UpdateTrelloCardAudio "Daily Wakeup Intro" wav_path)).
  { unfold all_went_well, writes_return. rewrite (run_cases sv). cbv zeta.
    destruct (makedirs sv intro_dir) as [e|].
    { left. split; [reflexivity |]. intros (H & _). discriminate H. }
    destruct (requested sv) as [[chunks broken]|e].
    2: { left. split; [reflexivity |]. intros (_ & (c & H & _) & _). discriminate H. }
    destruct (open_wb sv mp3_path) as [e|].
    { left. split; [reflexivity |]. intros (_ & _ & H & _). discriminate H. }
    destruct (close sv mp3_path) as [e|].
    { left. cbn [snd]. split; [on_the_log; reflexivity |].
      intros (_ & _ & _ & H & _). discriminate H. }
    destruct (snd (attempts sv mp3_path [] chunks)) as [e|] eqn:Hw.
    { left. cbn [snd]. split; [on_the_log; reflexivity |].
      intros (_ & (c & H & Hr) & _). injection H as <- _. rewrite Hw in Hr. discriminate Hr. }
    destruct broken as [e|].
    { left. cbn [snd]. split; [on_the_log; reflexivity |].
      intros (_ & (c & H & _) & _). discriminate H. }
    destruct (vocode_audio sv mp3_path wav_path) as [e|].
    { left. cbn [snd]. split; [on_the_log; reflexivity |].
      intros (_ & _ & _ & _ & H). discriminate H. }
    right. cbn [snd]. split; [on_the_log; reflexivity | split].
    - repeat split. exists chunks. split; [reflexivity | exact Hw].
    - rewrite !app_assoc. apply last_last. }
  destruct Hcases as [(Hf & Hno)|(Hf & Hall & Hlast)].
  - assert (Hex : existsb is_upload (snd (run sv)) = false).
    { apply existsb_filter_nil. exact Hf. }
    rewrite Hex, Hf. split; [| split; [| split]].
    + split; [discriminate | intros H; contradiction].
    + cbn [length]. lia.
    + discriminate.
    + intros card path H. exfalso.
      assert (Hin : In (UpdateTrelloCardAudio card path) (filter is_upload (snd (run sv))))
        by (apply filter_In; split; [exact H | reflexivity]).
      rewrite Hf in Hin. destruct Hin.
  - assert (Hex : existsb is_upload (snd (run sv)) = true).
    { destruct (existsb is_upload (snd (run sv))) eqn:E; [reflexivity |].
      apply existsb_filter_nil in E. rewrite E in Hf. discriminate Hf. }
    rewrite Hex, Hf. split; [| split; [| split]].
    + split; [intros _; exact Hall | reflexivity].
    + cbn [length]. lia.
    + intros _. exact Hlast.
    + intros card path H.
      assert (Hin : In (UpdateTrelloCardAudio card path) (filter is_upload (snd (run sv))))
        by (apply filter_In; split; [exact H | reflexivity]).
      rewrite Hf in Hin. destruct Hin as [E|[]].
      injection E as <- <-. split; reflexivity.
Qed.

Lemma upload_only_after_success_witness :
  let sv := studio [[Byte.x49]] None 9 in
  all_went_well sv
  /\ last (snd (run sv)) (Print "") = UpdateTrelloCardAudio "Daily Wakeup Intro" wav_path.
Proof.
  cbv zeta.
  assert (H : all_went_well (studio [[Byte.x49]] None 9)).
  { repeat split. exists [[Byte.x49]]. split; reflexivity. }
  split; [exact H |].
  destruct (upload_only_after_success (studio [[Byte.x49]] None 9)) as (Hiff & _ & Hlast & _).
  apply Hlast. apply Hiff. exact H.
Defined.

(** X14.  No exception is swallowed and none is invented: the notebook runs
    to its end exactly when every call, the upload included, returned
    normally; when it raises, the exception is one that one of its calls
    raised: the directory call, the request, the stream, the opening, a
    write, the closing, the vocoder or the upload. *)
Theorem exceptions_pass_through (sv : services) :
  (fst (run sv) = Ok tt <->
   all_went_well sv /\ update_trello_card_audio sv "Daily Wakeup Intro" wav_path = None)
  /\ forall e, fst (run sv) = Raise e ->
       makedirs sv intro_dir = Some e
       \/ requested sv = Raise e
       \/ (exists chunks, requested sv = Ok (chunks, Some e))
       \/ open_wb sv mp3_path = Some e
       \/ (exists sofar chunk, write sv mp3_path sofar chunk = Some e)
       \/ close sv mp3_path = Some e
       \/ vocode_audio sv mp3_path wav_path = Some e
       \/ update_trello_card_audio sv "Daily Wakeup Intro" wav_path = Some e.
Proof.
  unfold all_went_well, writes_return. rewrite (run_cases sv). cbv zeta.
  destruct (makedirs sv intro_dir) as [e0|].
  { cbn [fst]. split.
    - split; [discriminate | intros ((H & _) & _); discriminate H].
    - intros e H. injection H as <-. left. reflexivity. }
  destruct (requested sv) as [[chunks broken]|e0].
  2: { cbn [fst]. split.
       - split; [discriminate | intros ((_ & (c & H & _) & _) & _); discriminate H].
       - intros e H. injection H as <-. right. left. reflexivity. }
  destruct (open_wb sv mp3_path) as [e0|].
  { cbn [fst]. split.
    - split; [discriminate | intros ((_ & _ & H & _) & _); discriminate H].
    - intros e H. injection H as <-. do 3 right. left. reflexivity. }
  destruct (close sv mp3_path) as [e0|].
  { cbn [fst]. split.
    - split; [discriminate | intros ((_ & _ & _ & H & _) & _); discriminate H].
    - intros e H. injection H as <-. do 5 right. left. reflexivity. }
  destruct (snd (attempts sv mp3_path [] chunks)) as [e0|] eqn:Hw.
  { cbn [fst]. split.
    - split; [discriminate |].
      intros ((_ & (c & H & Hr) & _) & _). injection H as <- _.
      rewrite Hw in Hr. discriminate Hr.
    - intros e H. injection H as <-. do 4 right. left.
      exact (proj2 (proj2 (attempts_prefix sv mp3_path chunks [])) e0 Hw). }
  destruct broken as [e0|].
  { cbn [fst]. split.
    - split; [discriminate | intros ((_ & (c & H & _) & _) & _); discriminate H].
    - intros e H. injection H as <-. do 2 right. left. exists chunks. reflexivity. }
  destruct (vocode_audio sv mp3_path wav_path) as [e0|].
  { cbn [fst]. split.
    - split; [discriminate | intros ((_ & _ & _ & _ & H) & _); discriminate H].
    - intros e H. injection H as <-. do 6 right. left. reflexivity. }
  cbn [fst].
  destruct (update_trello_card_audio sv "Daily Wakeup Intro" wav_path) as [e0|].
  - split.
    + split; [discriminate | intros (_ & H); discriminate H].
    + intros e H. injection H as <-. do 7 right. reflexivity.
  - split.
    + split; [| reflexivity]. intros _. repeat split.
      exists chunks. split; [reflexivity | exact Hw].
    + intros e H. discriminate H.
Qed.

Lemma exceptions_pass_through_witness :
  let sv := studio [[Byte.x49; Byte.x44]; [Byte.x33]] None 2 in
  fst (run sv) = Raise (LibraryError "No space left on device")
  /\ exists sofar chunk,
       write sv mp3_path sofar chunk = Some (LibraryError "No space left on device").
Proof.
  cbv zeta. split; [reflexivity |].
  destruct (proj2 (exceptions_pass_through
                     (studio [[Byte.x49; Byte.x44]; [Byte.x33]] None 2))
                  (LibraryError "No space left on device") eq_refl)
    as [H|[H|[[c H]|[H|[H|[H|[H|H]]]]]]]; try discriminate H.
  exact H.
Defined.

End DailyIntroSpec.
